(** * LanguageTranslatorV3: request shaping and parameter validation

    A shallow embedding of [src/language-translator/v3.ts].  The
    caller's [params] object and the snapshots the methods take of it
    live in a store, so that the copy made by [extend({}, params)] and
    the closure of the promise path are objects of their own; a value
    is given by its contents or is a reference into the store, so that
    the copy is as shallow as it is in the code. *)

From Stdlib Require Import String Ascii ZArith List Bool Lia DecimalString.
From stdpp Require Import base option gmap.
Import ListNotations.
Local Open Scope string_scope.
Set Warnings "-register-all".

(** ** JavaScript values *)

Definition loc : Type := positive.

(** A value is given by its contents, or it is a reference to an
    object of the caller that lives in the store and that a method
    hands on as it is: the array of texts, a file.  What a method reads
    into, params and its headers, is given by its contents at the time
    of the call, where the method copies it. *)
Inductive value : Type :=
| VUndefined
| VNull
| VBool (b : bool)
| VNum (n : Z)
| VStr (s : string)
| VBuf (data : string)            (* Buffer, stream or FileObject: not a plain object *)
| VFun (f : nat)                  (* a function, known by its identity *)
| VRef (l : loc)                  (* an object held by reference *)
| VArr (xs : list value)
| VObj (props : list (string * value)).

(** An object is its list of own enumerable properties, in insertion
    order. *)
Definition obj : Type := list (string * value).

Fixpoint get (o : obj) (k : string) : value :=
  match o with
  | [] => VUndefined
  | (k', v) :: o' => if String.eqb k' k then v else get o' k
  end.

Fixpoint has (o : obj) (k : string) : bool :=
  match o with
  | [] => false
  | (k', _) :: o' => if String.eqb k' k then true else has o' k
  end.

(** [o[k] = v]: an existing property keeps its place, a new one goes
    last. *)
Fixpoint put (o : obj) (k : string) (v : value) : obj :=
  match o with
  | [] => [(k, v)]
  | (k', v') :: o' =>
      if String.eqb k' k then (k', v) :: o' else (k', v') :: put o' k v
  end.

Definition keys (o : obj) : list string := map fst o.

(** [!!v] *)
Definition truthy (v : value) : bool :=
  match v with
  | VUndefined | VNull => false
  | VBool b => b
  | VNum n => negb (Z.eqb n 0)
  | VStr s => negb (String.eqb s EmptyString)
  | VBuf _ | VFun _ | VRef _ | VArr _ | VObj _ => true
  end.

Definition typeof (v : value) : string :=
  match v with
  | VUndefined => "undefined"
  | VNull | VBuf _ | VRef _ | VArr _ | VObj _ => "object"
  | VBool _ => "boolean"
  | VNum _ => "number"
  | VStr _ => "string"
  | VFun _ => "function"
  end.

Definition is_undefined (v : value) : bool :=
  match v with VUndefined => true | _ => false end.

Definition index_key (i : nat) : string :=
  NilZero.string_of_uint (Nat.to_uint i).

Fixpoint indexed (i : nat) (xs : list value) : obj :=
  match xs with
  | [] => []
  | x :: xs' => (index_key i, x) :: indexed (S i) xs'
  end.

Fixpoint chars (s : string) : list value :=
  match s with
  | EmptyString => []
  | String c s' => VStr (String c EmptyString) :: chars s'
  end.

(** The properties a [for (name in v)] loop visits. *)
Definition enumerable (v : value) : obj :=
  match v with
  | VObj o => o
  | VArr xs => indexed 0 xs
  | VStr s => indexed 0 (chars s)
  | _ => []
  end.

(** ** The [extend] package

    The methods copy and merge objects with the [extend] package, a
    dependency of the module.  [extend([deep,] target, ...sources)]
    copies the enumerable properties of each source onto the target,
    from left to right.  A property whose value is [undefined] is never
    copied.  In deep mode a plain object or an array is merged into a
    clone of what the target holds under that name instead of being
    copied by reference. *)

Definition as_obj (v : value) : obj :=
  match v with VObj o => o | _ => [] end.

Definition as_arr (v : value) : list value :=
  match v with VArr xs => xs | _ => [] end.

(** [a[i] = v] on an array; writing past the end leaves holes, which
    read as [undefined]. *)
Fixpoint arr_set (xs : list value) (i : nat) (v : value) : list value :=
  match i, xs with
  | O, [] => [v]
  | O, _ :: xs' => v :: xs'
  | S i', [] => VUndefined :: arr_set [] i' v
  | S i', x :: xs' => x :: arr_set xs' i' v
  end.

(** What one turn of the deep loop stores under a name that holds [src]
    in the target and [copy] in the source; [None] when nothing is
    stored.  A value held by reference is stored as that reference. *)
Fixpoint deep_copy (src copy : value) {struct copy} : option value :=
  match copy with
  | VUndefined => None
  | VObj ps =>
      Some (VObj
        ((fix go (t : obj) (ps : obj) {struct ps} : obj :=
            match ps with
            | [] => t
            | (k, c) :: ps' =>
                go (match deep_copy (get t k) c with
                    | Some v => put t k v
                    | None => t
                    end) ps'
            end) (as_obj src) ps))
  | VArr xs =>
      Some (VArr
        ((fix go (t : list value) (i : nat) (xs : list value) {struct xs}
            : list value :=
            match xs with
            | [] => t
            | c :: xs' =>
                go (match deep_copy (nth i t VUndefined) c with
                    | Some v => arr_set t i v
                    | None => t
                    end) (S i) xs'
            end) (as_arr src) 0%nat xs))
  | _ => Some copy
  end.

Definition extend_step (deep : bool) (t : obj) (p : string * value) : obj :=
  let '(name, copy) := p in
  if deep then
    match deep_copy (get t name) copy with
    | Some v => put t name v
    | None => t
    end
  else if is_undefined copy then t else put t name copy.

Definition extend1 (deep : bool) (target : obj) (source : value) : obj :=
  fold_left (extend_step deep) (enumerable source) target.

Definition extend (deep : bool) (target : obj) (sources : list value) : obj :=
  fold_left (extend1 deep) sources target.

(** ** Errors, callbacks and the store *)

Inductive error : Type :=
| MissingParams (missing : list string)  (* the validator's error, with the names it found missing *)
| ArgumentError (message : string)       (* thrown by the constructor *)
| CredentialsError                       (* thrown by the constructor of the base client *)
| TransportError (e : value).            (* whatever the transport reports *)

Abbreviation store := (gmap loc obj).

Definition deref (σ : store) (l : loc) : obj := default [] (σ !! l).

(** The first argument of a method, as the caller passes it: nothing,
    a function, or a reference to the caller's params object. *)
Inductive arg : Type :=
| ArgUndefined
| ArgFun (f : nat)
| ArgObj (l : loc).

Definition arg_value (σ : store) (a : arg) : value :=
  match a with
  | ArgUndefined => VUndefined
  | ArgFun f => VFun f
  | ArgObj l => VObj (deref σ l)
  end.

(** A completion handler is either a function of the caller, of which
    only the identity is known, or the arrow function the promise path
    creates; the latter closes over the [_params] object of the call
    that created it. *)
Inductive Callback : Type :=
| CbUser (f : nat)
| CbPromise (_params : loc).

Definition alloc (σ : store) (o : obj) : store * loc :=
  let l := fresh (dom σ) in (<[l := o]> σ, l).

(** [extend({}, params)]: a new object holding the defined own
    properties of [params]. *)
Definition snapshot_of (σ : store) (params : arg) : obj :=
  extend false [] [arg_value σ params].

Definition snapshot (σ : store) (params : arg) : store * loc :=
  alloc σ (snapshot_of σ params).

(** Modelled from the spec: the validator of the shared base library
    ([getMissingParams]).  A required name is missing when it is absent
    from the parameters or bound to an empty or undefined value, which
    the library tests as [!params[name]]; the result is empty ([null])
    or an error carrying the missing names in the order they are
    required. *)
Definition getMissingParams (params : obj) (requires : list string) : option error :=
  match List.filter (fun r => negb (truthy (get params r))) requires with
  | [] => None
  | missing => Some (MissingParams missing)
  end.

(** The argument of [createRequest]. *)
Record parameters : Type := {
  options : obj;
  defaultOptions : obj
}.

(** What a method does once it holds a completion handler: call it
    with a validation error, or hand a request to the transport. *)
Inductive action : Type :=
| Invoke (cb : Callback) (err : error)
| CreateRequest (p : parameters) (cb : Callback).

Inductive result : Type :=
| Returned (a : action)     (* the callback path *)
| Promised (a : action).    (* [new Promise(...)], whose executor ran [a] *)

Definition action_of (r : result) : action :=
  match r with Returned a | Promised a => a end.

Definition transport_calls (a : action) : nat :=
  match a with Invoke _ _ => 0 | CreateRequest _ _ => 1 end.

(** ** The client *)

Record Options : Type := {
  version : option string;
  url : option string;
  iam_access_token : option string;
  iam_apikey : option string;
  iam_url : option string;
  username : option string;
  password : option string;
  use_unauthenticated : option bool;
  headers : option obj
}.

Definition opt_str (o : option string) : value :=
  match o with Some s => VStr s | None => VUndefined end.

Definition opt_bool (o : option bool) : value :=
  match o with Some b => VBool b | None => VUndefined end.

Definition opt_obj (o : option obj) : value :=
  match o with Some h => VObj h | None => VUndefined end.

Definition Options_value (o : Options) : value :=
  VObj [("version", opt_str (version o));
        ("url", opt_str (url o));
        ("iam_access_token", opt_str (iam_access_token o));
        ("iam_apikey", opt_str (iam_apikey o));
        ("iam_url", opt_str (iam_url o));
        ("username", opt_str (username o));
        ("password", opt_str (password o));
        ("use_unauthenticated", opt_bool (use_unauthenticated o));
        ("headers", opt_obj (headers o))].

Definition URL : string :=
  "https://gateway.watsonplatform.net/language-translator/api".

(** Modelled from the spec: construction requires an authentication
    configuration, credentials or a token.  The options name them: a
    username with its password, an IAM access token or an IAM API key;
    [use_unauthenticated] set to true asks for none.  Credentials the
    base client may find in its environment are left out. *)
Definition authenticated (options : Options) : bool :=
  match use_unauthenticated options with
  | Some true => true
  | _ =>
      truthy (opt_str (iam_access_token options))
      || truthy (opt_str (iam_apikey options))
      || (truthy (opt_str (username options)) && truthy (opt_str (password options)))
  end.

(** Modelled from the spec: the options the shared base client keeps
    as the persistent default configuration (base URL, global headers),
    next to an empty query mapping. *)
Definition base_options (options : Options) : obj :=
  extend false [("qs", VObj []); ("url", VStr URL)] [Options_value options].

(** Modelled from the spec: the constructor of the shared base client,
    which fails when the options carry no authentication
    configuration. *)
Definition BaseService (options : Options) : error + obj :=
  if authenticated options then inr (base_options options)
  else inl CredentialsError.

Record client : Type := { _options : obj }.

Definition constructor (options : Options) : error + client :=
  match BaseService options with
  | inl e => inl e
  | inr this_options =>
      if String.eqb (typeof (get this_options "version")) "undefined" then
        inl (ArgumentError "Argument error: version was not specified")
      else
        inr {| _options :=
                 put this_options "qs"
                   (VObj (put (as_obj (get this_options "qs")) "version"
                              (opt_str (version options)))) |}
  end.

(** ** The methods

    [getSdkHeaders] is imported from [lib/common]; the methods are
    embedded over any function from service name, service version and
    operation name to a header object, a new one at each call. *)

Section Methods.

Variable getSdkHeaders : string -> string -> string -> obj.

(** [defaultOptions], the same expression in every method: a deep copy
    of the client's options under the headers of this call, which are
    the diagnostic headers overlaid with the fixed ones and then with
    [_params.headers]. *)
Definition default_options (this : client) (sdkHeaders fixed : obj) (_params : obj) : obj :=
  extend true [] [VObj (_options this);
                  VObj [("headers",
                         VObj (extend true sdkHeaders
                                 [VObj fixed; get _params "headers"]))]].

(** *** translate *)

Definition translate_parameters (this : client) (_params : obj) : parameters :=
  let body := [("text", get _params "text");
               ("model_id", get _params "model_id");
               ("source", get _params "source");
               ("target", get _params "target")] in
  let sdkHeaders := getSdkHeaders "language_translator" "v3" "translate" in
  {| options := [("url", VStr "/v3/translate");
                 ("method", VStr "POST");
                 ("body", VObj body)];
     defaultOptions :=
       default_options this sdkHeaders
         [("Accept", VStr "application/json");
          ("Content-Type", VStr "application/json")] _params |}.

(** The method entered with a completion handler: by the caller with
    a function of its own, or by the promise path with its arrow
    function. *)
Definition translate_cb (this : client) (params : arg) (_callback : Callback)
    (σ : store) : store * action :=
  let '(σ1, l) := snapshot σ params in
  let _params := deref σ1 l in
  let requiredParams := ["text"] in
  match getMissingParams _params requiredParams with
  | Some missingParams => (σ1, Invoke _callback missingParams)
  | None => (σ1, CreateRequest (translate_parameters this _params) _callback)
  end.

Definition translate (this : client) (params : arg) (callback : option nat)
    (σ : store) : store * result :=
  match callback with
  | Some f =>
      let '(σ1, a) := translate_cb this params (CbUser f) σ in (σ1, Returned a)
  | None =>
      let '(σ1, l) := snapshot σ params in
      let '(σ2, a) := translate_cb this params (CbPromise l) σ1 in
      (σ2, Promised a)
  end.

(** *** identify *)

Definition identify_parameters (this : client) (_params : obj) : parameters :=
  let body := get _params "text" in
  let sdkHeaders := getSdkHeaders "language_translator" "v3" "identify" in
  {| options := [("url", VStr "/v3/identify");
                 ("method", VStr "POST");
                 ("body", body)];
     defaultOptions :=
       default_options this sdkHeaders
         [("Accept", VStr "application/json");
          ("Content-Type", VStr "text/plain")] _params |}.

Definition identify_cb (this : client) (params : arg) (_callback : Callback)
    (σ : store) : store * action :=
  let '(σ1, l) := snapshot σ params in
  let _params := deref σ1 l in
  let requiredParams := ["text"] in
  match getMissingParams _params requiredParams with
  | Some missingParams => (σ1, Invoke _callback missingParams)
  | None => (σ1, CreateRequest (identify_parameters this _params) _callback)
  end.

Definition identify (this : client) (params : arg) (callback : option nat)
    (σ : store) : store * result :=
  match callback with
  | Some f =>
      let '(σ1, a) := identify_cb this params (CbUser f) σ in (σ1, Returned a)
  | None =>
      let '(σ1, l) := snapshot σ params in
      let '(σ2, a) := identify_cb this params (CbPromise l) σ1 in
      (σ2, Promised a)
  end.

(** *** listIdentifiableLanguages *)

Definition listIdentifiableLanguages_parameters (this : client) (_params : obj)
    : parameters :=
  let sdkHeaders :=
    getSdkHeaders "language_translator" "v3" "listIdentifiableLanguages" in
  {| options := [("url", VStr "/v3/identifiable_languages");
                 ("method", VStr "GET")];
     defaultOptions :=
       default_options this sdkHeaders
         [("Accept", VStr "application/json")] _params |}.

Definition listIdentifiableLanguages_cb (this : client) (params : arg)
    (_callback : Callback) (σ : store) : store * action :=
  let '(σ1, l) := snapshot σ params in
  let _params := deref σ1 l in
  (σ1, CreateRequest (listIdentifiableLanguages_parameters this _params) _callback).

(** Without a second argument a function in first position is the
    callback, and [_params] is a new empty object. *)
Definition listIdentifiableLanguages (this : client) (params : arg)
    (callback : option nat) (σ : store) : store * result :=
  match callback, params with
  | Some f, _ =>
      let '(σ1, a) := listIdentifiableLanguages_cb this params (CbUser f) σ in
      (σ1, Returned a)
  | None, ArgFun f =>
      let '(σ1, l) := alloc σ [] in
      let _params := deref σ1 l in
      (σ1, Returned (CreateRequest
                       (listIdentifiableLanguages_parameters this _params)
                       (CbUser f)))
  | None, _ =>
      let '(σ1, l) := snapshot σ params in
      let '(σ2, a) := listIdentifiableLanguages_cb this params (CbPromise l) σ1 in
      (σ2, Promised a)
  end.

(** *** createModel *)

Definition createModel_parameters (this : client) (_params : obj) : parameters :=
  let formData :=
    [("forced_glossary",
      VObj [("data", get _params "forced_glossary");
            ("contentType", VStr "application/octet-stream")]);
     ("parallel_corpus",
      VObj [("data", get _params "parallel_corpus");
            ("contentType", VStr "application/octet-stream")])] in
  let query := [("base_model_id", get _params "base_model_id");
                ("name", get _params "name")] in
  let sdkHeaders := getSdkHeaders "language_translator" "v3" "createModel" in
  {| options := [("url", VStr "/v3/models");
                 ("method", VStr "POST");
                 ("qs", VObj query);
                 ("formData", VObj formData)];
     defaultOptions :=
       default_options this sdkHeaders
         [("Accept", VStr "application/json");
          ("Content-Type", VStr "multipart/form-data")] _params |}.

Definition createModel_cb (this : client) (params : arg) (_callback : Callback)
    (σ : store) : store * action :=
  let '(σ1, l) := snapshot σ params in
  let _params := deref σ1 l in
  let requiredParams := ["base_model_id"] in
  match getMissingParams _params requiredParams with
  | Some missingParams => (σ1, Invoke _callback missingParams)
  | None => (σ1, CreateRequest (createModel_parameters this _params) _callback)
  end.

Definition createModel (this : client) (params : arg) (callback : option nat)
    (σ : store) : store * result :=
  match callback with
  | Some f =>
      let '(σ1, a) := createModel_cb this params (CbUser f) σ in (σ1, Returned a)
  | None =>
      let '(σ1, l) := snapshot σ params in
      let '(σ2, a) := createModel_cb this params (CbPromise l) σ1 in
      (σ2, Promised a)
  end.

(** *** deleteModel *)

Definition deleteModel_parameters (this : client) (_params : obj) : parameters :=
  let path := [("model_id", get _params "model_id")] in
  let sdkHeaders := getSdkHeaders "language_translator" "v3" "deleteModel" in
  {| options := [("url", VStr "/v3/models/{model_id}");
                 ("method", VStr "DELETE");
                 ("path", VObj path)];
     defaultOptions :=
       default_options this sdkHeaders
         [("Accept", VStr "application/json")] _params |}.

Definition deleteModel_cb (this : client) (params : arg) (_callback : Callback)
    (σ : store) : store * action :=
  let '(σ1, l) := snapshot σ params in
  let _params := deref σ1 l in
  let requiredParams := ["model_id"] in
  match getMissingParams _params requiredParams with
  | Some missingParams => (σ1, Invoke _callback missingParams)
  | None => (σ1, CreateRequest (deleteModel_parameters this _params) _callback)
  end.

Definition deleteModel (this : client) (params : arg) (callback : option nat)
    (σ : store) : store * result :=
  match callback with
  | Some f =>
      let '(σ1, a) := deleteModel_cb this params (CbUser f) σ in (σ1, Returned a)
  | None =>
      let '(σ1, l) := snapshot σ params in
      let '(σ2, a) := deleteModel_cb this params (CbPromise l) σ1 in
      (σ2, Promised a)
  end.

(** *** getModel *)

Definition getModel_parameters (this : client) (_params : obj) : parameters :=
  let path := [("model_id", get _params "model_id")] in
  let sdkHeaders := getSdkHeaders "language_translator" "v3" "getModel" in
  {| options := [("url", VStr "/v3/models/{model_id}");
                 ("method", VStr "GET");
                 ("path", VObj path)];
     defaultOptions :=
       default_options this sdkHeaders
         [("Accept", VStr "application/json")] _params |}.

Definition getModel_cb (this : client) (params : arg) (_callback : Callback)
    (σ : store) : store * action :=
  let '(σ1, l) := snapshot σ params in
  let _params := deref σ1 l in
  let requiredParams := ["model_id"] in
  match getMissingParams _params requiredParams with
  | Some missingParams => (σ1, Invoke _callback missingParams)
  | None => (σ1, CreateRequest (getModel_parameters this _params) _callback)
  end.

Definition getModel (this : client) (params : arg) (callback : option nat)
    (σ : store) : store * result :=
  match callback with
  | Some f =>
      let '(σ1, a) := getModel_cb this params (CbUser f) σ in (σ1, Returned a)
  | None =>
      let '(σ1, l) := snapshot σ params in
      let '(σ2, a) := getModel_cb this params (CbPromise l) σ1 in
      (σ2, Promised a)
  end.

(** *** listModels *)

Definition listModels_parameters (this : client) (_params : obj) : parameters :=
  let query := [("source", get _params "source");
                ("target", get _params "target");
                ("default", get _params "default_models")] in
  let sdkHeaders := getSdkHeaders "language_translator" "v3" "listModels" in
  {| options := [("url", VStr "/v3/models");
                 ("method", VStr "GET");
                 ("qs", VObj query)];
     defaultOptions :=
       default_options this sdkHeaders
         [("Accept", VStr "application/json")] _params |}.

Definition listModels_cb (this : client) (params : arg) (_callback : Callback)
    (σ : store) : store * action :=
  let '(σ1, l) := snapshot σ params in
  let _params := deref σ1 l in
  (σ1, CreateRequest (listModels_parameters this _params) _callback).

Definition listModels (this : client) (params : arg) (callback : option nat)
    (σ : store) : store * result :=
  match callback, params with
  | Some f, _ =>
      let '(σ1, a) := listModels_cb this params (CbUser f) σ in (σ1, Returned a)
  | None, ArgFun f =>
      let '(σ1, l) := alloc σ [] in
      let _params := deref σ1 l in
      (σ1, Returned (CreateRequest (listModels_parameters this _params) (CbUser f)))
  | None, _ =>
      let '(σ1, l) := snapshot σ params in
      let '(σ2, a) := listModels_cb this params (CbPromise l) σ1 in
      (σ2, Promised a)
  end.

(** *** All seven *)

Inductive operation : Type :=
| Translate | Identify | ListIdentifiableLanguages
| CreateModel | DeleteModel | GetModel | ListModels.

Definition invoke (op : operation)
    : client -> arg -> option nat -> store -> store * result :=
  match op with
  | Translate => translate
  | Identify => identify
  | ListIdentifiableLanguages => listIdentifiableLanguages
  | CreateModel => createModel
  | DeleteModel => deleteModel
  | GetModel => getModel
  | ListModels => listModels
  end.

(** The [requiredParams] of a method; the two list methods declare
    none and do not call the validator. *)
Definition requiredParams (op : operation) : list string :=
  match op with
  | Translate | Identify => ["text"]
  | CreateModel => ["base_model_id"]
  | DeleteModel | GetModel => ["model_id"]
  | ListIdentifiableLanguages | ListModels => []
  end.

End Methods.

(** ** Completion

    The transport answers a request by calling the completion handler
    with [(err, bod, res)]; a method that fails validation calls it
    with the error alone. *)

Record reply : Type := {
  err : option error;
  bod : value;
  res : value
}.

Inductive event : Type :=
| Called (f : nat) (r : reply)   (* the caller's function receives the reply *)
| Rejected (e : error)           (* the promise is rejected *)
| Resolved (v : value).          (* the promise is resolved *)

(** Calling a completion handler in store [σ].  The arrow function of
    the promise path is
    [(err, bod, res) => err ? reject(err) : _params.return_response ? resolve(res) : resolve(bod)]
    and reads its [_params] when it runs. *)
Definition call (σ : store) (cb : Callback) (r : reply) : event :=
  match cb with
  | CbUser f => Called f r
  | CbPromise l =>
      match err r with
      | Some e => Rejected e
      | None =>
          if truthy (get (deref σ l) "return_response")
          then Resolved (res r) else Resolved (bod r)
      end
  end.

(** How an action ends against a transport that answers request [p]
    with [transport p], the handler running in store [σ]. *)
Definition complete (transport : parameters -> reply) (σ : store) (a : action) : event :=
  match a with
  | Invoke cb e => call σ cb {| err := Some e; bod := VUndefined; res := VUndefined |}
  | CreateRequest p cb => call σ cb (transport p)
  end.

(** The locations a value refers to. *)
Fixpoint refs (v : value) : list loc :=
  match v with
  | VRef l => [l]
  | VArr xs => flat_map refs xs
  | VObj o => flat_map (fun kv => refs (snd kv)) o
  | _ => []
  end.





(** Every location a value refers to satisfies [Q]. *)
Definition sound (Q : loc -> Prop) (v : value) : Prop :=
  forall l, In l (refs v) -> Q l.

(** Not an array and not an object given by its contents. *)
Definition leaf (v : value) : Prop :=
  match v with
  | VArr _ | VObj _ => False
  | _ => True
  end.

(** Modelled from the spec: the transport builds its request from the
    call's options merged over the client's default configuration, and
    leaves out of the query every entry whose value is undefined.  The
    merge is the deep [extend], which copies no undefined value. *)
Definition request_options (p : parameters) : obj :=
  extend true [] [VObj (defaultOptions p); VObj (options p)].

Definition query (p : parameters) : obj :=
  as_obj (get (request_options p) "qs").

(** ** Reading a descriptor *)

Definition descriptor (a : action) : option parameters :=
  match a with
  | Invoke _ _ => None
  | CreateRequest p _ => Some p
  end.

Definition request_headers (p : parameters) : obj :=
  as_obj (get (defaultOptions p) "headers").

Definition request_body (p : parameters) : value := get (options p) "body".

Definition request_formData (p : parameters) : obj :=
  as_obj (get (options p) "formData").

(** The own properties of the first argument as the method sees them. *)
Definition params_of (σ : store) (a : arg) : obj := enumerable (arg_value σ a).

(** An object has each property once. *)
Definition wf_obj (o : obj) : Prop := NoDup (keys o).

Definition wf_arg (σ : store) (a : arg) : Prop := wf_obj (params_of σ a).

(** Header values are not plain objects or arrays, be they given by
    their contents or by reference. *)
Definition scalar (v : value) : bool :=
  match v with
  | VObj _ | VArr _ | VRef _ => false
  | _ => true
  end.

Definition flat (o : obj) : bool := forallb (fun p => scalar (snd p)) o.

(** Key-by-key merge: the value of the layer of highest precedence
    that defines the key; [layers] lists the values from highest to
    lowest precedence. *)
Fixpoint pick (layers : list value) : value :=
  match layers with
  | [] => VUndefined
  | v :: rest => if is_undefined v then pick rest else v
  end.

Definition operation_name (op : operation) : string :=
  match op with
  | Translate => "translate"
  | Identify => "identify"
  | ListIdentifiableLanguages => "listIdentifiableLanguages"
  | CreateModel => "createModel"
  | DeleteModel => "deleteModel"
  | GetModel => "getModel"
  | ListModels => "listModels"
  end.

(** The fixed [Accept] of every method and the fixed [Content-Type] of
    the methods that send a body. *)
Definition accept_header : obj := [("Accept", VStr "application/json")].

Definition content_type_header (op : operation) : obj :=
  match op with
  | Translate => [("Content-Type", VStr "application/json")]
  | Identify => [("Content-Type", VStr "text/plain")]
  | CreateModel => [("Content-Type", VStr "multipart/form-data")]
  | ListIdentifiableLanguages | DeleteModel | GetModel | ListModels => []
  end.

Definition fixed_headers (op : operation) : obj :=
  (accept_header ++ content_type_header op)%list.

(** The request a method builds from its [_params]. *)
Definition parameters_of (getSdkHeaders : string -> string -> string -> obj)
    (op : operation) : client -> obj -> parameters :=
  match op with
  | Translate => translate_parameters getSdkHeaders
  | Identify => identify_parameters getSdkHeaders
  | ListIdentifiableLanguages => listIdentifiableLanguages_parameters getSdkHeaders
  | CreateModel => createModel_parameters getSdkHeaders
  | DeleteModel => deleteModel_parameters getSdkHeaders
  | GetModel => getModel_parameters getSdkHeaders
  | ListModels => listModels_parameters getSdkHeaders
  end.

(** A stand-in for [lib/common]'s [getSdkHeaders], used where a
    concrete one is needed. *)
Definition sdkHeaders_stub (serviceName serviceVersion operationId : string) : obj :=
  [("X-IBMCloud-SDK-Analytics",
    VStr ("service_name=" ++ serviceName ++ ";service_version=" ++ serviceVersion
          ++ ";operation_id=" ++ operationId))].

Definition options_stub : Options :=
  {| version := Some "2018-05-01"; url := None; iam_access_token := None;
     iam_apikey := Some "apikey"; iam_url := None; username := None; password := None;
     use_unauthenticated := None;
     headers := Some [("X-Watson-Learning-Opt-Out", VBool true)] |}.

Definition options_bare : Options :=
  {| version := Some "2018-05-01"; url := None; iam_access_token := None;
     iam_apikey := None; iam_url := None; username := None; password := None;
     use_unauthenticated := None; headers := None |}.

Definition client_stub : client :=
  match constructor options_stub with
  | inr this => this
  | inl _ => {| _options := [] |}
  end.

(** The action of a method on the snapshot [_params] once it holds the
    completion handler [cb]; a method without required parameters has
    nothing to check. *)
Definition plan (getSdkHeaders : string -> string -> string -> obj)
    (op : operation) (this : client) (_params : obj) (cb : Callback) : action :=
  match getMissingParams _params (requiredParams op) with
  | Some missingParams => Invoke cb missingParams
  | None => CreateRequest (parameters_of getSdkHeaders op this _params) cb
  end.

(** The two methods that accept their callback in first position. *)
Definition callback_first (op : operation) : bool :=
  match op with
  | ListIdentifiableLanguages | ListModels => true
  | _ => false
  end.

Definition is_function (a : arg) : bool :=
  match a with ArgFun _ => true | _ => false end.

(** What [extend] leaves under one name that held [src] when the source
    holds [copy]. *)
Definition stored (deep : bool) (src copy : value) : value :=
  if deep then default src (deep_copy src copy)
  else if is_undefined copy then src else copy.

(** The names the validator finds missing. *)
Definition missing_of (o : obj) (requires : list string) : list string :=
  List.filter (fun r => negb (truthy (get o r))) requires.

(** The headers of one call, before they are laid over the client's. *)
Definition call_headers (sdkHeaders fixed : obj) (_params : obj) : obj :=
  extend true sdkHeaders [VObj fixed; get _params "headers"].

(** ** Concrete inputs *)

Definition caller_store (o : obj) : store := {[ 1%positive := o ]}.

Definition caller_params : arg := ArgObj 1%positive.

Definition params_hello : obj :=
  [("text", VArr [VStr "hello"]); ("source", VStr "en"); ("target", VStr "es")].

Definition params_custom : obj :=
  [("text", VStr "bonjour");
   ("headers", VObj [("Accept", VStr "text/html");
                     ("X-Watson-Learning-Opt-Out", VBool false)]);
   ("return_response", VBool true)].







Definition transport_stub (p : parameters) : reply :=
  {| err := None;
     bod := VObj [("languages", VArr [])];
     res := VObj [("status", VNum 200); ("data", VObj [("languages", VArr [])])] |}.

(** ** Tables of the methods *)


(** The [url] and the [method] of a method's [options]. *)
Definition url_of (op : operation) : string :=
  match op with
  | Translate => "/v3/translate"
  | Identify => "/v3/identify"
  | ListIdentifiableLanguages => "/v3/identifiable_languages"
  | CreateModel | ListModels => "/v3/models"
  | DeleteModel | GetModel => "/v3/models/{model_id}"
  end.

Definition method_of (op : operation) : string :=
  match op with
  | Translate | Identify | CreateModel => "POST"
  | ListIdentifiableLanguages | GetModel | ListModels => "GET"
  | DeleteModel => "DELETE"
  end.

(** The keys of a method's [options] after [url] and [method]. *)
Definition payload_keys (op : operation) : list string :=
  match op with
  | Translate | Identify => ["body"]
  | ListIdentifiableLanguages => []
  | CreateModel => ["qs"; "formData"]
  | DeleteModel | GetModel => ["path"]
  | ListModels => ["qs"]
  end.

(** The [query] literal of a method, over the properties [P] of its
    params. *)
Definition declared_query (op : operation) (P : obj) : obj :=
  match op with
  | CreateModel =>
      [("base_model_id", get P "base_model_id"); ("name", get P "name")]
  | ListModels =>
      [("source", get P "source"); ("target", get P "target");
       ("default", get P "default_models")]
  | _ => []
  end.

(** The entries of an object whose value is not undefined. *)
Definition defined_entries (q : obj) : obj :=
  List.filter (fun kv => negb (is_undefined (snd kv))) q.

(** Every required parameter of the method is truthy. *)
Definition required_present (o : obj) (op : operation) : bool :=
  forallb (fun r => truthy (get o r)) (requiredParams op).

(** What a method did, the completion handler left aside: the
    validator's error or the request. *)
Definition outcome (a : action) : error + parameters :=
  match a with
  | Invoke _ e => inl e
  | CreateRequest p _ => inr p
  end.

(** The argument refers to nothing, or to an object of the store. *)
Definition allocated (σ : store) (a : arg) : Prop :=
  match a with
  | ArgObj l => l ∈ dom σ
  | _ => True
  end.

(** What the handler receives when the action is carried out. *)
Definition reply_of (transport : parameters -> reply) (a : action) : reply :=
  match a with
  | Invoke _ e => {| err := Some e; bod := VUndefined; res := VUndefined |}
  | CreateRequest p _ => transport p
  end.

Definition options_with_url : Options :=
  {| version := Some "2018-05-01"; url := Some "https://example.test/api";
     iam_access_token := None; iam_apikey := Some "key"; iam_url := None;
     username := None; password := None; use_unauthenticated := None;
     headers := Some [("Accept", VStr "text/plain")] |}.

Definition client_with_url : client :=
  match constructor options_with_url with
  | inr this => this
  | inl _ => {| _options := [] |}
  end.

(** * Properties *)

(** A literal object has each of its keys once. *)
Ltac wf_literal :=
  unfold wf_obj; cbn; apply (bool_decide_unpack _); vm_compute; exact I.

(** ** Objects *)

Lemma get_put_eq (o : obj) k v : get (put o k v) k = v.
Proof.
  induction o as [|[k' v'] o IH]; simpl.
  - now rewrite String.eqb_refl.
  - destruct (String.eqb k' k) eqn:E; simpl; rewrite E; auto.
Qed.

Lemma get_put_ne (o : obj) k k' v : k <> k' -> get (put o k v) k' = get o k'.
Proof.
  intros Hne. induction o as [|[k0 v0] o IH]; simpl.
  - destruct (String.eqb k k') eqn:E; [apply String.eqb_eq in E; congruence | reflexivity].
  - destruct (String.eqb k0 k) eqn:E; simpl.
    + apply String.eqb_eq in E. subst k0.
      destruct (String.eqb k k') eqn:E'; [apply String.eqb_eq in E'; congruence | reflexivity].
    + destruct (String.eqb k0 k'); auto.
Qed.

Lemma get_put (o : obj) k k' v :
  get (put o k v) k' = if String.eqb k k' then v else get o k'.
Proof.
  destruct (String.eqb k k') eqn:E.
  - apply String.eqb_eq in E. subst. apply get_put_eq.
  - apply String.eqb_neq in E. now apply get_put_ne.
Qed.

Lemma has_In (o : obj) k : has o k = true <-> In k (keys o).
Proof.
  induction o as [|[k' v'] o IH]; simpl.
  - split; [discriminate | tauto].
  - destruct (String.eqb k' k) eqn:E.
    + apply String.eqb_eq in E. tauto.
    + apply String.eqb_neq in E. rewrite IH. split; [tauto | intros [H|H]; congruence].
Qed.

Lemma has_put (o : obj) k k' v :
  has (put o k v) k' = (String.eqb k k' || has o k')%bool.
Proof.
  induction o as [|[k0 v0] o IH]; simpl.
  - destruct (String.eqb k k'); reflexivity.
  - destruct (String.eqb k0 k) eqn:E; simpl.
    + apply String.eqb_eq in E. subst k0. destruct (String.eqb k k'); reflexivity.
    + rewrite IH. destruct (String.eqb k0 k') eqn:E'; [now rewrite orb_true_r | reflexivity].
Qed.

Lemma get_absent (o : obj) k : ~ In k (keys o) -> get o k = VUndefined.
Proof.
  induction o as [|[k' v'] o IH]; simpl; [reflexivity|].
  intros H. destruct (String.eqb k' k) eqn:E.
  - apply String.eqb_eq in E. tauto.
  - apply IH. tauto.
Qed.

Lemma keys_put (o : obj) k v :
  keys (put o k v) = if has o k then keys o else (keys o ++ [k])%list.
Proof.
  induction o as [|[k' v'] o IH]; simpl; [reflexivity|].
  destruct (String.eqb k' k) eqn:E; simpl; [reflexivity|].
  rewrite IH. now destruct (has o k).
Qed.

Lemma wf_put (o : obj) k v : wf_obj o -> wf_obj (put o k v).
Proof.
  unfold wf_obj. intros H. rewrite keys_put.
  destruct (has o k) eqn:E; [assumption|].
  apply NoDup_app. repeat split; [assumption | | apply NoDup_singleton].
  intros x Hx Hx'. apply list_elem_of_singleton in Hx'. subst x.
  apply list_elem_of_In, has_In in Hx. congruence.
Qed.


(** ** [extend] *)

Example extend_skips_undefined :
  extend false [] [VObj [("a", VNum 1); ("b", VUndefined)]] = [("a", VNum 1)].
Proof. reflexivity. Qed.

Example extend_deep_merges :
  extend true [] [VObj [("h", VObj [("x", VNum 1); ("y", VNum 2)])];
                  VObj [("h", VObj [("y", VNum 3); ("z", VUndefined)])]]
  = [("h", VObj [("x", VNum 1); ("y", VNum 3)])].
Proof. reflexivity. Qed.

Lemma deep_copy_obj src ps :
  deep_copy src (VObj ps) = Some (VObj (fold_left (extend_step true) ps (as_obj src))).
Proof.
  simpl. do 2 f_equal. generalize (as_obj src).
  induction ps as [|[k c] ps IH]; intros t; simpl; [reflexivity | apply IH].
Qed.

Lemma deep_copy_scalar src c :
  scalar c = true -> deep_copy src c = if is_undefined c then None else Some c.
Proof. destruct c; simpl; intros; try reflexivity; discriminate. Qed.

Lemma deep_copy_defined src c :
  is_undefined c = false -> exists v, deep_copy src c = Some v /\ is_undefined v = false.
Proof.
  destruct c; try discriminate; intros _;
    try (eexists; split; [reflexivity | reflexivity]).
Qed.

Lemma stored_scalar deep src c : scalar c = true -> stored deep src c = pick [c; src].
Proof.
  intros H. unfold stored. destruct deep.
  - rewrite (deep_copy_scalar _ _ H). simpl. destruct (is_undefined c), src; reflexivity.
  - simpl. destruct (is_undefined c), src; reflexivity.
Qed.

Lemma stored_undefined deep src : stored deep src VUndefined = src.
Proof. now destruct deep. Qed.

Lemma stored_obj src q :
  stored true src (VObj q) = VObj (fold_left (extend_step true) q (as_obj src)).
Proof. unfold stored. now rewrite deep_copy_obj. Qed.

Lemma extend_step_put deep t k c :
  extend_step deep t (k, c) =
    if is_undefined c then t else put t k (stored deep (get t k) c).
Proof.
  unfold extend_step, stored. destruct deep.
  - destruct (is_undefined c) eqn:E.
    + destruct c; try discriminate. reflexivity.
    + destruct (deep_copy_defined (get t k) c E) as [v [-> _]]. reflexivity.
  - destruct (is_undefined c); reflexivity.
Qed.

Lemma get_extend_step deep t k c k' :
  get (extend_step deep t (k, c)) k' =
    if String.eqb k k' then stored deep (get t k) c else get t k'.
Proof.
  rewrite extend_step_put. destruct (is_undefined c) eqn:E.
  - destruct c; try discriminate. rewrite stored_undefined.
    destruct (String.eqb k k') eqn:E'; [apply String.eqb_eq in E'; now subst | reflexivity].
  - apply get_put.
Qed.

Lemma get_fold_extend deep (s : obj) :
  wf_obj s ->
  forall t k, get (fold_left (extend_step deep) s t) k = stored deep (get t k) (get s k).
Proof.
  unfold wf_obj. induction s as [|[k0 c] s IH]; intros Hwf t k;
    cbn [fold_left get keys map fst] in *.
  - now rewrite stored_undefined.
  - apply NoDup_cons in Hwf as [Hnotin Hwf]. rewrite (IH Hwf).
    rewrite get_extend_step. destruct (String.eqb k0 k) eqn:E.
    + apply String.eqb_eq in E. subst k0.
      rewrite (get_absent s k); [apply stored_undefined|].
      intros Hin. apply Hnotin. now apply list_elem_of_In.
    + reflexivity.
Qed.

Lemma has_fold_extend deep (s : obj) :
  wf_obj s ->
  forall t k, has (fold_left (extend_step deep) s t) k
              = (has t k || negb (is_undefined (get s k)))%bool.
Proof.
  unfold wf_obj. induction s as [|[k0 c] s IH]; intros Hwf t k;
    cbn [fold_left get keys map fst] in *.
  - now rewrite orb_false_r.
  - apply NoDup_cons in Hwf as [Hnotin Hwf]. rewrite (IH Hwf).
    rewrite extend_step_put.
    destruct (String.eqb k0 k) eqn:E.
    + apply String.eqb_eq in E. subst k0.
      rewrite (get_absent s k) by (intros Hin; apply Hnotin; now apply list_elem_of_In).
      simpl. rewrite orb_false_r.
      destruct (is_undefined c); simpl; [now rewrite orb_false_r|].
      rewrite has_put, String.eqb_refl. simpl. now rewrite orb_true_r.
    + destruct (is_undefined c); [reflexivity|].
      rewrite has_put, E. reflexivity.
Qed.

Lemma wf_fold_extend deep (s : obj) : forall t, wf_obj t -> wf_obj (fold_left (extend_step deep) s t).
Proof.
  induction s as [|[k c] s IH]; intros t Ht; cbn [fold_left]; [assumption|].
  apply IH. rewrite extend_step_put. destruct (is_undefined c); [assumption | now apply wf_put].
Qed.

Lemma wf_extend deep (srcs : list value) : forall t, wf_obj t -> wf_obj (extend deep t srcs).
Proof.
  unfold extend. induction srcs as [|v srcs IH]; intros t Ht; simpl; [assumption|].
  apply IH. now apply wf_fold_extend.
Qed.

Lemma get_snapshot_of σ params k :
  wf_arg σ params -> get (snapshot_of σ params) k = get (params_of σ params) k.
Proof.
  intros Hwf. unfold snapshot_of, extend, extend1. cbn [fold_left].
  rewrite (get_fold_extend false _ Hwf). unfold stored. cbn [get].
  now destruct (get (params_of σ params) k).
Qed.

Lemma wf_snapshot_of σ params : wf_obj (snapshot_of σ params).
Proof. apply wf_extend. constructor. Qed.

(** ** The store *)

Lemma fresh_unused (σ : store) : σ !! fresh (dom σ) = None.
Proof. apply not_elem_of_dom, is_fresh. Qed.

Lemma deref_alloc (σ : store) l o : deref (<[l := o]> σ) l = o.
Proof. unfold deref. now rewrite lookup_insert_eq. Qed.

Lemma deref_alloc_ne (σ : store) l l' o : l <> l' -> deref (<[l := o]> σ) l' = deref σ l'.
Proof. intros H. unfold deref. now rewrite lookup_insert_ne. Qed.

(** Taking a snapshot does not change what the argument refers to. *)
Lemma arg_value_alloc (σ : store) params :
  arg_value (<[fresh (dom σ) := snapshot_of σ params]> σ) params = arg_value σ params.
Proof.
  destruct params as [| f | l]; try reflexivity. cbn [arg_value]. f_equal.
  destruct (decide (fresh (dom σ) = l)) as [<- | Hne].
  - rewrite deref_alloc. unfold snapshot_of. cbn [arg_value]. unfold deref.
    rewrite fresh_unused. reflexivity.
  - now apply deref_alloc_ne.
Qed.

Lemma snapshot_of_alloc (σ : store) params :
  snapshot_of (<[fresh (dom σ) := snapshot_of σ params]> σ) params = snapshot_of σ params.
Proof. unfold snapshot_of at 1 3. now rewrite arg_value_alloc. Qed.

(** ** The methods, one description for all seven *)

Section Invoke.

Variable getSdkHeaders : string -> string -> string -> obj.

Lemma getMissingParams_none (o : obj) : getMissingParams o [] = None.
Proof. reflexivity. Qed.

Lemma invoke_callback op this params f (σ : store) :
  invoke getSdkHeaders op this params (Some f) σ =
    (<[fresh (dom σ) := snapshot_of σ params]> σ,
     Returned (plan getSdkHeaders op this (snapshot_of σ params) (CbUser f))).
Proof.
  destruct op; cbn [invoke];
    unfold translate, translate_cb, identify, identify_cb,
      listIdentifiableLanguages, listIdentifiableLanguages_cb,
      createModel, createModel_cb, deleteModel, deleteModel_cb,
      getModel, getModel_cb, listModels, listModels_cb, snapshot, alloc, plan;
    cbn [requiredParams parameters_of]; rewrite ?deref_alloc;
    try (destruct (getMissingParams _ _); reflexivity);
    reflexivity.
Qed.

Lemma invoke_promise op this params (σ : store) :
  (callback_first op && is_function params)%bool = false ->
  let s := snapshot_of σ params in
  let σ1 := <[fresh (dom σ) := s]> σ in
  invoke getSdkHeaders op this params None σ =
    (<[fresh (dom σ1) := s]> σ1,
     Promised (plan getSdkHeaders op this s (CbPromise (fresh (dom σ))))).
Proof.
  intros Hnf s σ1.
  destruct op; cbn [invoke];
    unfold translate, translate_cb, identify, identify_cb,
      listIdentifiableLanguages, listIdentifiableLanguages_cb,
      createModel, createModel_cb, deleteModel, deleteModel_cb,
      getModel, getModel_cb, listModels, listModels_cb, snapshot, alloc, plan;
    cbn [requiredParams parameters_of];
    try (destruct params; try discriminate Hnf);
    rewrite ?snapshot_of_alloc, ?deref_alloc;
    fold s; fold σ1;
    try (destruct (getMissingParams _ _); reflexivity);
    reflexivity.
Qed.

Lemma invoke_function_first op this f (σ : store) :
  callback_first op = true ->
  invoke getSdkHeaders op this (ArgFun f) None σ =
    (<[fresh (dom σ) := []]> σ, Returned (plan getSdkHeaders op this [] (CbUser f))).
Proof.
  intros Hop. destruct op; try discriminate Hop; cbn [invoke];
    unfold listIdentifiableLanguages, listModels, alloc, plan;
    rewrite deref_alloc; reflexivity.
Qed.

End Invoke.

(** ** Validation *)

Lemma getMissingParams_missing (o : obj) requires :
  missing_of o requires <> [] ->
  getMissingParams o requires = Some (MissingParams (missing_of o requires)).
Proof.
  unfold getMissingParams, missing_of.
  destruct (List.filter _ requires); [congruence | reflexivity].
Qed.

Lemma getMissingParams_present (o : obj) requires :
  missing_of o requires = [] -> getMissingParams o requires = None.
Proof. unfold getMissingParams, missing_of. now intros ->. Qed.

Lemma missing_of_snapshot σ params requires :
  wf_arg σ params ->
  missing_of (snapshot_of σ params) requires = missing_of (params_of σ params) requires.
Proof.
  intros Hwf. unfold missing_of. apply List.filter_ext.
  intros r. now rewrite get_snapshot_of.
Qed.

Lemma missing_of_nil_iff (o : obj) (op : operation) :
  missing_of o (requiredParams op) = [] <-> required_present o op = true.
Proof.
  unfold missing_of, required_present.
  induction (requiredParams op) as [|r rs IH]; cbn [List.filter forallb]; [tauto|].
  destruct (truthy (get o r)); cbn [negb andb]; [exact IH|].
  split; discriminate.
Qed.

Lemma required_not_first op name : In name (requiredParams op) -> callback_first op = false.
Proof. destruct op; simpl; tauto. Qed.

(** ** The constructor and the default options *)

Lemma wf_Options_value options : wf_obj (enumerable (Options_value options)).
Proof. wf_literal. Qed.

Lemma get_base_options options k :
  get (base_options options) k =
    stored false (get [("qs", VObj []); ("url", VStr URL)] k)
                 (get (enumerable (Options_value options)) k).
Proof.
  unfold base_options, extend, extend1. cbn [fold_left].
  apply get_fold_extend, wf_Options_value.
Qed.

Lemma wf_base_options options : wf_obj (base_options options).
Proof. apply wf_extend. wf_literal. Qed.

Lemma constructor_unauthenticated options :
  authenticated options = false -> constructor options = inl CredentialsError.
Proof. intros Ha. unfold constructor, BaseService. now rewrite Ha. Qed.

Lemma constructor_throws options :
  version options = None ->
  authenticated options = true ->
  constructor options = inl (ArgumentError "Argument error: version was not specified").
Proof.
  intros Hv Ha. unfold constructor, BaseService. rewrite Ha, get_base_options.
  cbn. rewrite Hv. reflexivity.
Qed.

Lemma constructor_returns options v :
  version options = Some v ->
  authenticated options = true ->
  constructor options =
    inr {| _options := put (base_options options) "qs" (VObj [("version", VStr v)]) |}.
Proof.
  intros Hv Ha. unfold constructor, BaseService. rewrite Ha, !get_base_options.
  cbn. rewrite Hv. reflexivity.
Qed.

(** What a constructed client holds. *)
Lemma constructed options this :
  constructor options = inr this ->
  exists v, version options = Some v /\
    wf_obj (_options this) /\
    get (_options this) "qs" = VObj [("version", VStr v)] /\
    get (_options this) "headers" = opt_obj (headers options).
Proof.
  intros Hc. destruct (authenticated options) eqn:Ha;
    [|rewrite (constructor_unauthenticated _ Ha) in Hc; discriminate].
  destruct (version options) as [v|] eqn:Hv.
  - rewrite (constructor_returns _ _ Hv Ha) in Hc. injection Hc as <-.
    exists v. cbn [_options]. split; [reflexivity|]. split; [|split].
    + apply wf_put, wf_base_options.
    + apply get_put_eq.
    + rewrite get_put_ne by discriminate. rewrite get_base_options. cbn.
      now destruct (headers options).
  - rewrite (constructor_throws _ Hv Ha) in Hc. discriminate.
Qed.

Lemma get_default_options this sdkHeaders fixed _params k :
  wf_obj (_options this) ->
  get (default_options this sdkHeaders fixed _params) k =
    if String.eqb "headers" k
    then VObj (fold_left (extend_step true) (call_headers sdkHeaders fixed _params)
                 (as_obj (stored true VUndefined (get (_options this) "headers"))))
    else stored true VUndefined (get (_options this) k).
Proof.
  intros Hwf. unfold default_options, extend, extend1. cbn [fold_left enumerable].
  rewrite get_extend_step, !(get_fold_extend true _ Hwf). cbn [get].
  destruct (String.eqb "headers" k); [|reflexivity].
  now rewrite stored_obj.
Qed.

Lemma wf_default_options this sdkHeaders fixed _params :
  wf_obj (default_options this sdkHeaders fixed _params).
Proof. apply wf_extend. constructor. Qed.

Lemma defaultOptions_parameters_of sdk op this _params :
  defaultOptions (parameters_of sdk op this _params) =
    default_options this (sdk "language_translator" "v3" (operation_name op))
      (fixed_headers op) _params.
Proof. destruct op; reflexivity. Qed.

Lemma wf_options_parameters_of sdk op this _params :
  wf_obj (options (parameters_of sdk op this _params)).
Proof. destruct op; wf_literal. Qed.

(** Every call runs the plan of its method on the snapshot of its
    first argument. *)
Lemma invoke_action sdk op this params callback (σ : store) :
  exists cb,
    action_of (invoke sdk op this params callback σ).2 =
      plan sdk op this (snapshot_of σ params) cb.
Proof.
  destruct callback as [f0|].
  - rewrite invoke_callback. now exists (CbUser f0).
  - destruct (callback_first op && is_function params)%bool eqn:E.
    + apply andb_true_iff in E as [Hop Hf]. destruct params as [|f|]; try discriminate.
      rewrite invoke_function_first by assumption. now exists (CbUser f).
    + rewrite invoke_promise by assumption. eexists. reflexivity.
Qed.

Lemma plan_descriptor sdk op this _params cb p :
  descriptor (plan sdk op this _params cb) = Some p ->
  p = parameters_of sdk op this _params /\
  getMissingParams _params (requiredParams op) = None.
Proof.
  unfold plan. destruct (getMissingParams _ _); cbn; [discriminate|].
  intros [= <-]. auto.
Qed.

Lemma invoke_descriptor sdk op this params callback (σ : store) p :
  descriptor (action_of (invoke sdk op this params callback σ).2) = Some p ->
  p = parameters_of sdk op this (snapshot_of σ params) /\
  getMissingParams (snapshot_of σ params) (requiredParams op) = None.
Proof.
  destruct (invoke_action sdk op this params callback σ) as [cb ->].
  apply plan_descriptor.
Qed.

Lemma get_request_qs sdk op this _params opts v :
  constructor opts = inr this ->
  version opts = Some v ->
  get (request_options (parameters_of sdk op this _params)) "qs" =
    stored true (VObj [("version", VStr v)])
      (get (options (parameters_of sdk op this _params)) "qs").
Proof.
  intros Hc Hv. destruct (constructed _ _ Hc) as (v' & Hv' & Hwf & Hqs & _).
  assert (v' = v) as -> by congruence.
  unfold request_options, extend, extend1. cbn [fold_left enumerable].
  rewrite (get_fold_extend true _ (wf_options_parameters_of _ _ _ _)).
  rewrite defaultOptions_parameters_of.
  rewrite (get_fold_extend true _ (wf_default_options _ _ _ _)).
  rewrite get_default_options by assumption. rewrite Hqs. reflexivity.
Qed.

Lemma get_defaultOptions_qs sdk op this _params opts v :
  constructor opts = inr this ->
  version opts = Some v ->
  get (defaultOptions (parameters_of sdk op this _params)) "qs" =
    VObj [("version", VStr v)].
Proof.
  intros Hc Hv. destruct (constructed _ _ Hc) as (v' & Hv' & Hwf & Hqs & _).
  assert (v' = v) as -> by congruence.
  rewrite defaultOptions_parameters_of, get_default_options by assumption.
  rewrite Hqs. reflexivity.
Qed.

Lemma invoke_produces sdk op this params callback (σ : store) :
  wf_arg σ params ->
  required_present (params_of σ params) op = true ->
  descriptor (action_of (invoke sdk op this params callback σ).2)
    = Some (parameters_of sdk op this (snapshot_of σ params)).
Proof.
  intros Hwf Hreq.
  destruct (invoke_action sdk op this params callback σ) as [cb ->].
  unfold plan. rewrite getMissingParams_present; [reflexivity|].
  rewrite missing_of_snapshot by assumption. now apply missing_of_nil_iff.
Qed.

(** ** Merging by precedence *)




(** ** What a call leaves in the store *)

Lemma fresh_after_alloc (σ : store) l o : fresh (dom (<[l := o]> σ)) <> l.
Proof.
  intros Heq. apply (is_fresh (dom (<[l := o]> σ))). rewrite Heq.
  apply elem_of_dom. rewrite lookup_insert_eq. eauto.
Qed.

Lemma snapshot_of_invoke sdk op this params callback (σ : store) :
  snapshot_of (invoke sdk op this params callback σ).1 params = snapshot_of σ params.
Proof.
  destruct callback as [f|].
  - rewrite invoke_callback. apply snapshot_of_alloc.
  - destruct (callback_first op && is_function params)%bool eqn:E.
    + apply andb_true_iff in E as [Hop Hf]. destruct params as [|f|]; try discriminate.
      reflexivity.
    + rewrite invoke_promise by assumption. cbn [fst].
      pose proof (snapshot_of_alloc σ params) as Hs.
      set (s := snapshot_of σ params) in *.
      set (σ1 := <[fresh (dom σ) := s]> σ) in *. clearbody σ1 s.
      transitivity (snapshot_of σ1 params); [|exact Hs].
      rewrite <- Hs at 1. apply snapshot_of_alloc.
Qed.

Lemma descriptor_plan sdk op this _params cb cb' :
  descriptor (plan sdk op this _params cb) = descriptor (plan sdk op this _params cb').
Proof. unfold plan. now destruct (getMissingParams _ _). Qed.

(** A call only adds objects to the store. *)
Lemma invoke_preserves sdk op this params callback (σ : store) l :
  l ∈ dom σ -> (invoke sdk op this params callback σ).1 !! l = σ !! l.
Proof.
  intros Hl.
  assert (Hfresh : forall (τ : store) o, dom σ ⊆ dom τ -> <[fresh (dom τ) := o]> τ !! l = τ !! l).
  { intros τ o Hsub. apply lookup_insert_ne. intros Heq.
    apply (is_fresh (dom τ)). rewrite Heq. now apply Hsub. }
  destruct callback as [f|].
  - rewrite invoke_callback. now apply Hfresh.
  - destruct (callback_first op && is_function params)%bool eqn:E.
    + apply andb_true_iff in E as [Hop Hf]. destruct params as [|f|]; try discriminate.
      rewrite invoke_function_first by assumption. now apply Hfresh.
    + rewrite invoke_promise by assumption. cbn [fst].
      rewrite Hfresh; [now apply Hfresh|].
      rewrite dom_insert_L. set_solver.
Qed.


(** ** References *)

Section value_induction.

Variable P : value -> Prop.
Hypothesis Pleaf : forall v, leaf v -> P v.
Hypothesis Parr : forall xs, Forall P xs -> P (VArr xs).
Hypothesis Pobj : forall o, Forall (fun kv => P (snd kv)) o -> P (VObj o).


End value_induction.

Section Sound.

Variable Q : loc -> Prop.

Lemma sound_leaf v : leaf v -> (forall l, v = VRef l -> Q l) -> sound Q v.
Proof.
  intros Hleaf HQ l Hl. destruct v; cbn in Hl; try contradiction.
  destruct Hl as [<- | []]. now apply HQ.
Qed.
























End Sound.




Section Claims.

Variable getSdkHeaders : string -> string -> string -> obj.

(** C1, as the code has it.  A method that declares required
    parameters (translate and identify: text; createModel:
    base_model_id; deleteModel and getModel: model_id), called with one
    of them absent or bound to a falsy value (undefined, null, the
    empty string, false, 0), hands the validator's error, which carries
    the names of the missing parameters, to the completion handler: to
    the supplied callback, or to the promise, which is rejected with
    it.  The method does not call [createRequest].  An empty array or
    object is not falsy and counts as present. *)
Theorem required_params_validated op this params callback (σ : store) :
  wf_arg σ params ->
  (exists name, In name (requiredParams op) /\
     truthy (get (params_of σ params) name) = false) ->
  let missing := missing_of (params_of σ params) (requiredParams op) in
  let run := invoke getSdkHeaders op this params callback σ in
  missing <> [] /\
  (forall name, In name missing <->
     In name (requiredParams op) /\ truthy (get (params_of σ params) name) = false) /\
  transport_calls (action_of run.2) = 0%nat /\
  match callback with
  | Some f => run.2 = Returned (Invoke (CbUser f) (MissingParams missing))
  | None =>
      exists l, run.2 = Promised (Invoke (CbPromise l) (MissingParams missing)) /\
        forall transport,
          complete transport run.1 (action_of run.2) = Rejected (MissingParams missing)
  end.
Proof.
  intros Hwf (name & Hreq & Hempty) missing run.
  assert (Hin : forall n, In n missing <->
            In n (requiredParams op) /\ truthy (get (params_of σ params) n) = false).
  { intros n. unfold missing, missing_of. rewrite List.filter_In.
    now rewrite negb_true_iff. }
  assert (Hne : missing <> []).
  { intros Hnil. assert (In name missing) as Hn by (apply Hin; auto).
    rewrite Hnil in Hn. destruct Hn. }
  assert (Hplan : forall cb, plan getSdkHeaders op this (snapshot_of σ params) cb
                             = Invoke cb (MissingParams missing)).
  { intros cb. unfold plan. rewrite getMissingParams_missing;
      rewrite missing_of_snapshot by assumption; [reflexivity | assumption]. }
  split; [assumption|]. split; [assumption|].
  subst run. destruct callback as [cb|].
  - rewrite invoke_callback, Hplan. cbn. auto.
  - rewrite invoke_promise
      by (rewrite (required_not_first _ _ Hreq); reflexivity).
    rewrite Hplan. cbn. split; [reflexivity|]. eexists. split; [reflexivity|].
    intros transport. reflexivity.
Qed.

(** C2, as the code has it.  Constructing a client without a version
    throws: the argument error when the options carry credentials, the
    error of the base client when they do not.  Constructing it with a
    version string and credentials returns a client.  Every call of a
    method of that client whose required parameters are present
    produces a request, and every request the client produces carries
    the version string as the [version] entry of its query parameters:
    in the [qs] of the default options the method passes on, and in the
    query of the request the transport builds from them. *)
Theorem version_required (opts : Options) :
  (version opts = None -> exists e, constructor opts = inl e) /\
  (version opts = None -> authenticated opts = true ->
   constructor opts =
     inl (ArgumentError "Argument error: version was not specified")) /\
  (forall v, version opts = Some v -> authenticated opts = true ->
   exists this, constructor opts = inr this /\
     (forall op params callback (σ : store),
        wf_arg σ params ->
        required_present (params_of σ params) op = true ->
        exists p,
          descriptor (action_of (invoke getSdkHeaders op this params callback σ).2)
            = Some p) /\
     (forall op params callback (σ : store) p,
        descriptor (action_of (invoke getSdkHeaders op this params callback σ).2) = Some p ->
        get (as_obj (get (defaultOptions p) "qs")) "version" = VStr v /\
        get (query p) "version" = VStr v)).
Proof.
  split; [|split].
  - intros Hv. destruct (authenticated opts) eqn:Ha.
    + eexists. now apply constructor_throws.
    + eexists. now apply constructor_unauthenticated.
  - apply constructor_throws.
  - intros v Hv Ha. pose proof (constructor_returns _ _ Hv Ha) as Hc.
    eexists. split; [exact Hc|]. split.
    + intros op params callback σ Hwf Hreq. eexists.
      now apply invoke_produces.
    + intros op params callback σ p Hp.
      apply invoke_descriptor in Hp as [-> _]. split.
      * now rewrite (get_defaultOptions_qs _ _ _ _ _ _ Hc Hv).
      * unfold query. rewrite (get_request_qs _ _ _ _ _ _ Hc Hv).
        destruct op; cbn [parameters_of options translate_parameters identify_parameters
          listIdentifiableLanguages_parameters createModel_parameters
          deleteModel_parameters getModel_parameters listModels_parameters];
          cbn [get String.eqb Ascii.eqb Bool.eqb]; try reflexivity;
          rewrite stored_obj; cbn [as_obj];
          rewrite get_fold_extend by wf_literal; reflexivity.
Qed.

(** C3, as the code has it.  A call to translate whose params carry a
    text produces a POST to /v3/translate whose body object has the
    four declared fields text, model_id, source and target, in this
    order, each bound to the value params has under that name: a field
    params does not have is in the body object all the same, bound to
    undefined (not null). *)
Theorem translate_body this params callback (σ : store) :
  wf_arg σ params ->
  truthy (get (params_of σ params) "text") = true ->
  exists p,
    descriptor (action_of (translate getSdkHeaders this params callback σ).2) = Some p /\
    get (options p) "url" = VStr "/v3/translate" /\
    get (options p) "method" = VStr "POST" /\
    request_body p =
      VObj [("text", get (params_of σ params) "text");
            ("model_id", get (params_of σ params) "model_id");
            ("source", get (params_of σ params) "source");
            ("target", get (params_of σ params) "target")].
Proof.
  intros Hwf Htext.
  destruct (invoke_action getSdkHeaders Translate this params callback σ) as [cb Ha].
  cbn [invoke] in Ha. rewrite Ha. unfold plan.
  rewrite getMissingParams_present.
  - eexists. split; [reflexivity|].
    unfold request_body.
    cbn [parameters_of translate_parameters options get String.eqb Ascii.eqb Bool.eqb].
    rewrite !get_snapshot_of by assumption. auto.
  - rewrite missing_of_snapshot by assumption. cbn. now rewrite Htext.
Qed.

(** C4, as the code has it.  A call to createModel whose params carry
    a base_model_id produces a request whose form data has both
    declared entries, forced_glossary and parallel_corpus, in this
    order and whatever params holds: each entry is an object with the
    content type application/octet-stream and with [data] bound to the
    value params has under that name, which is undefined when params
    has none. *)
Theorem createModel_formData this params callback (σ : store) :
  wf_arg σ params ->
  truthy (get (params_of σ params) "base_model_id") = true ->
  exists p,
    descriptor (action_of (createModel getSdkHeaders this params callback σ).2) = Some p /\
    get (options p) "formData" =
      VObj [("forced_glossary",
             VObj [("data", get (params_of σ params) "forced_glossary");
                   ("contentType", VStr "application/octet-stream")]);
            ("parallel_corpus",
             VObj [("data", get (params_of σ params) "parallel_corpus");
                   ("contentType", VStr "application/octet-stream")])].
Proof.
  intros Hwf Hid.
  destruct (invoke_action getSdkHeaders CreateModel this params callback σ) as [cb Ha].
  cbn [invoke] in Ha. rewrite Ha. unfold plan.
  rewrite getMissingParams_present.
  - eexists. split; [reflexivity|].
    cbn [parameters_of createModel_parameters options get String.eqb Ascii.eqb Bool.eqb].
    now rewrite !get_snapshot_of by assumption.
  - rewrite missing_of_snapshot by assumption. cbn. now rewrite Hid.
Qed.

(** C6.  Every call to listModels on a constructed client produces a
    request whose query mapping binds source, target and default to
    what params holds under source, target and default_models, so that
    [false] stays [false] and is not taken for an absent value.  In
    the query the transport assembles an entry is left out exactly
    when that value is undefined; a default_models that is [false] is
    sent as the boolean [false]. *)
Theorem listModels_query opts this params callback (σ : store) :
  constructor opts = inr this ->
  wf_arg σ params ->
  let P := params_of σ params in
  exists p,
    descriptor (action_of (listModels getSdkHeaders this params callback σ).2) = Some p /\
    get (options p) "qs" =
      VObj [("source", get P "source"); ("target", get P "target");
            ("default", get P "default_models")] /\
    has (query p) "default" = negb (is_undefined (get P "default_models")) /\
    has (query p) "source" = negb (is_undefined (get P "source")) /\
    has (query p) "target" = negb (is_undefined (get P "target")) /\
    (get P "default_models" = VBool false -> get (query p) "default" = VBool false).
Proof.
  intros Hc Hwf P.
  destruct (constructed _ _ Hc) as (v & Hv & _).
  destruct (invoke_action getSdkHeaders ListModels this params callback σ) as [cb Ha].
  cbn [invoke] in Ha. rewrite Ha. unfold plan. rewrite getMissingParams_none.
  eexists. split; [reflexivity|].
  change (listModels_parameters getSdkHeaders this (snapshot_of σ params))
    with (parameters_of getSdkHeaders ListModels this (snapshot_of σ params)).
  unfold query. rewrite (get_request_qs _ _ _ _ _ _ Hc Hv).
  cbn [parameters_of listModels_parameters options get String.eqb Ascii.eqb Bool.eqb].
  rewrite !get_snapshot_of by assumption. fold P.
  rewrite stored_obj. cbn [as_obj].
  rewrite !has_fold_extend, get_fold_extend by wf_literal.
  cbn [has get String.eqb Ascii.eqb Bool.eqb orb].
  repeat split; try reflexivity.
  intros ->. reflexivity.
Qed.


(** C7.  Called without a callback, every method returns a promise.
    The promise is rejected with the error when the call reports one,
    be it the validator's or the transport's; otherwise it is resolved
    with the full response when [return_response] of params is truthy
    and with the body alone when it is not.  (A function passed first
    to one of the two list methods is a callback.) *)
Theorem promise_settles op this params (σ : store) :
  wf_arg σ params ->
  (callback_first op && is_function params)%bool = false ->
  let run := invoke getSdkHeaders op this params None σ in
  exists a, run.2 = Promised a /\
    forall transport,
      complete transport run.1 a =
        match a with
        | Invoke _ e => Rejected e
        | CreateRequest request _ =>
            match err (transport request) with
            | Some e => Rejected e
            | None =>
                if truthy (get (params_of σ params) "return_response")
                then Resolved (res (transport request))
                else Resolved (bod (transport request))
            end
        end.
Proof.
  intros Hwf Hnf run. subst run. rewrite invoke_promise by assumption.
  cbn [fst snd]. eexists. split; [reflexivity|]. intros transport.
  unfold plan. destruct (getMissingParams _ _); cbn [complete call err]; [reflexivity|].
  rewrite deref_alloc_ne by apply fresh_after_alloc.
  rewrite deref_alloc, get_snapshot_of by assumption. reflexivity.
Qed.


(** C9.  Two calls of identify, one after the other, on the same
    client and with the same params, produce the same request, or both
    none; when params carries a text the request is a POST to
    /v3/identify whose body is that text as it is. *)
Theorem identify_deterministic this params callback1 callback2 (σ : store) :
  let first := identify getSdkHeaders this params callback1 σ in
  let second := identify getSdkHeaders this params callback2 first.1 in
  descriptor (action_of first.2) = descriptor (action_of second.2) /\
  (wf_arg σ params ->
   truthy (get (params_of σ params) "text") = true ->
   exists p, descriptor (action_of first.2) = Some p /\
     options p = [("url", VStr "/v3/identify");
                  ("method", VStr "POST");
                  ("body", get (params_of σ params) "text")] /\
     request_headers p =
       as_obj (get (default_options this
                      (getSdkHeaders "language_translator" "v3" "identify")
                      [("Accept", VStr "application/json");
                       ("Content-Type", VStr "text/plain")]
                      (snapshot_of σ params)) "headers")).
Proof.
  intros first second.
  destruct (invoke_action getSdkHeaders Identify this params callback1 σ) as [cb1 H1].
  destruct (invoke_action getSdkHeaders Identify this params callback2 first.1) as [cb2 H2].
  cbn [invoke] in H1, H2. fold first in H1. fold second in H2.
  rewrite H1, H2. split.
  - change first with (invoke getSdkHeaders Identify this params callback1 σ).
    rewrite (snapshot_of_invoke getSdkHeaders Identify this params callback1 σ).
    apply descriptor_plan.
  - intros Hwf Htext. unfold plan. rewrite getMissingParams_present.
    + eexists. split; [reflexivity|].
      cbn [identify_parameters parameters_of options].
      rewrite get_snapshot_of by assumption. split; reflexivity.
    + rewrite missing_of_snapshot by assumption. cbn. now rewrite Htext.
Qed.

(** C10.  The two methods without required parameters,
    listIdentifiableLanguages and listModels, take a function passed as
    their only argument for the callback: the call hands the request
    the method builds from no parameters to the transport with that
    function as the completion handler, which receives the reply, and
    it is the very call made with an empty params object and that
    callback.  The other five methods do not: called with a function
    alone they return a promise, which the validator's error rejects,
    and the function is not their completion handler. *)
Theorem callback_in_first_position this f (σ : store) l op :
  deref σ l = [] ->
  (callback_first op = true <-> op = ListIdentifiableLanguages \/ op = ListModels) /\
  (callback_first op = true ->
   invoke getSdkHeaders op this (ArgFun f) None σ
     = (<[fresh (dom σ) := []]> σ,
        Returned (CreateRequest (parameters_of getSdkHeaders op this []) (CbUser f))) /\
   invoke getSdkHeaders op this (ArgFun f) None σ
     = invoke getSdkHeaders op this (ArgObj l) (Some f) σ /\
   get (options (parameters_of getSdkHeaders op this [])) "url" = VStr (url_of op) /\
   get (options (parameters_of getSdkHeaders op this [])) "method" = VStr "GET" /\
   forall transport (τ : store),
     complete transport τ
       (action_of (invoke getSdkHeaders op this (ArgFun f) None σ).2)
     = Called f (transport (parameters_of getSdkHeaders op this []))) /\
  (callback_first op = false ->
   (invoke getSdkHeaders op this (ArgFun f) None σ).2
     = Promised (Invoke (CbPromise (fresh (dom σ))) (MissingParams (requiredParams op)))).
Proof.
  intros Hempty. split; [|split].
  - destruct op; cbn; split; intros H; try discriminate; try reflexivity; auto;
      destruct H as [H|H]; discriminate H.
  - intros Hop.
    assert (Hplan : plan getSdkHeaders op this [] (CbUser f)
                    = CreateRequest (parameters_of getSdkHeaders op this []) (CbUser f))
      by (destruct op; try discriminate Hop; reflexivity).
    assert (Hcall : invoke getSdkHeaders op this (ArgFun f) None σ
              = (<[fresh (dom σ) := []]> σ,
                 Returned (CreateRequest (parameters_of getSdkHeaders op this [])
                             (CbUser f))))
      by (rewrite invoke_function_first by assumption; now rewrite Hplan).
    split; [exact Hcall|]. split; [|split; [|split]].
    + rewrite Hcall, invoke_callback.
      unfold snapshot_of. cbn [arg_value]. rewrite Hempty.
      change (extend false [] [VObj []]) with (@nil (string * value)).
      now rewrite Hplan.
    + destruct op; try discriminate Hop; reflexivity.
    + destruct op; try discriminate Hop; reflexivity.
    + intros transport τ. rewrite Hcall. reflexivity.
  - intros Hop. rewrite invoke_promise by now rewrite Hop.
    cbn [snd]. destruct op; try discriminate Hop; reflexivity.
Qed.

End Claims.

(** ** The claims at concrete inputs *)

Ltac wf_stored :=
  unfold wf_arg, wf_obj; apply (bool_decide_unpack _); vm_compute; exact I.

Lemma required_params_validated_witness :
  wf_arg (caller_store [("source", VStr "en")]) caller_params /\
  (exists name, In name (requiredParams Translate) /\
     truthy
       (get (params_of (caller_store [("source", VStr "en")]) caller_params) name) = false) /\
  transport_calls
    (action_of (invoke sdkHeaders_stub Translate client_stub caller_params None
                  (caller_store [("source", VStr "en")])).2) = 0%nat.
Proof.
  assert (H1 : wf_arg (caller_store [("source", VStr "en")]) caller_params) by wf_stored.
  assert (H2 : exists name, In name (requiredParams Translate) /\
     truthy
       (get (params_of (caller_store [("source", VStr "en")]) caller_params) name) = false)
    by (exists "text"; split; [now left | reflexivity]).
  split; [exact H1|]. split; [exact H2|].
  exact (proj1 (proj2 (proj2
    (required_params_validated sdkHeaders_stub Translate client_stub caller_params None
       _ H1 H2)))).
Defined.

(** C1 at [translate({text: []})]: the empty array is an empty value,
    yet the validator finds nothing missing and the request is handed
    to the transport. *)
Lemma empty_text_array_is_sent :
  let a := action_of (invoke sdkHeaders_stub Translate client_stub caller_params
                        (Some 0%nat) (caller_store [("text", VArr [])])).2 in
  transport_calls a = 1%nat /\
  option_map (fun p => get (as_obj (request_body p)) "text") (descriptor a)
    = Some (VArr []).
Proof. vm_compute. auto. Qed.

Lemma version_required_witness :
  version options_stub = Some "2018-05-01" /\
  authenticated options_stub = true /\
  wf_arg (caller_store params_hello) caller_params /\
  required_present (params_of (caller_store params_hello) caller_params) Translate = true /\
  exists this p,
    constructor options_stub = inr this /\
    descriptor (action_of (invoke sdkHeaders_stub Translate this caller_params None
                             (caller_store params_hello)).2) = Some p /\
    get (query p) "version" = VStr "2018-05-01".
Proof.
  assert (Hwf : wf_arg (caller_store params_hello) caller_params) by wf_stored.
  split; [reflexivity|]. split; [reflexivity|]. split; [exact Hwf|].
  split; [reflexivity|].
  destruct (proj2 (proj2 (version_required sdkHeaders_stub options_stub))
              "2018-05-01" eq_refl eq_refl) as (this & Hthis & Hsome & Hversion).
  destruct (Hsome Translate caller_params None (caller_store params_hello) Hwf eq_refl)
    as (p & Hp).
  exists this, p. split; [exact Hthis|]. split; [exact Hp|].
  exact (proj2 (Hversion Translate caller_params None (caller_store params_hello) p Hp)).
Defined.

(** C2 at options that hold a version and no credentials: the
    constructor throws. *)
Lemma constructor_needs_credentials :
  version options_bare = Some "2018-05-01" /\
  constructor options_bare = inl CredentialsError.
Proof. split; reflexivity. Qed.

(** C3 at the scenario of the spec: the body object of
    [translate({text: ["hello"], source: "en", target: "es"})] has a
    model_id field, bound to undefined. *)
Lemma translate_body_has_model_id :
  let a := action_of (translate sdkHeaders_stub client_stub caller_params (Some 0%nat)
                        (caller_store params_hello)).2 in
  option_map (fun p => keys (as_obj (request_body p))) (descriptor a)
    = Some ["text"; "model_id"; "source"; "target"] /\
  option_map (fun p => has (as_obj (request_body p)) "model_id") (descriptor a)
    = Some true /\
  option_map (fun p => get (as_obj (request_body p)) "model_id") (descriptor a)
    = Some VUndefined.
Proof. vm_compute. auto. Qed.

Lemma translate_body_witness :
  wf_arg (caller_store params_hello) caller_params /\
  truthy (get (params_of (caller_store params_hello) caller_params) "text") = true /\
  exists p,
    descriptor (action_of (translate sdkHeaders_stub client_stub caller_params (Some 0%nat)
                             (caller_store params_hello)).2) = Some p /\
    request_body p = VObj [("text", VArr [VStr "hello"]); ("model_id", VUndefined);
                           ("source", VStr "en"); ("target", VStr "es")].
Proof.
  assert (H1 : wf_arg (caller_store params_hello) caller_params) by wf_stored.
  split; [exact H1|]. split; [reflexivity|].
  destruct (translate_body sdkHeaders_stub client_stub caller_params (Some 0%nat)
              (caller_store params_hello) H1 eq_refl) as (p & Hp & _ & _ & Hbody).
  exists p. split; [exact Hp | exact Hbody].
Defined.

(** C4 at [createModel({base_model_id: "en-es"})]: the form data has
    both entries although params has neither file. *)
Lemma createModel_formData_has_undefined_fields :
  let a := action_of (createModel sdkHeaders_stub client_stub caller_params (Some 0%nat)
                        (caller_store [("base_model_id", VStr "en-es")])).2 in
  option_map (fun p => keys (request_formData p)) (descriptor a)
    = Some ["forced_glossary"; "parallel_corpus"] /\
  option_map (fun p => get (request_formData p) "forced_glossary") (descriptor a)
    = Some (VObj [("data", VUndefined);
                  ("contentType", VStr "application/octet-stream")]).
Proof. vm_compute. auto. Qed.

Lemma createModel_formData_witness :
  wf_arg (caller_store [("base_model_id", VStr "en-es")]) caller_params /\
  truthy (get (params_of (caller_store [("base_model_id", VStr "en-es")]) caller_params)
            "base_model_id") = true /\
  exists p,
    descriptor (action_of (createModel sdkHeaders_stub client_stub caller_params None
                             (caller_store [("base_model_id", VStr "en-es")])).2) = Some p /\
    has (request_formData p) "parallel_corpus" = true.
Proof.
  assert (H1 : wf_arg (caller_store [("base_model_id", VStr "en-es")]) caller_params)
    by wf_stored.
  split; [exact H1|]. split; [reflexivity|].
  destruct (createModel_formData sdkHeaders_stub client_stub caller_params None
              (caller_store [("base_model_id", VStr "en-es")]) H1 eq_refl)
    as (p & Hp & Hform).
  exists p. split; [exact Hp|]. unfold request_formData. rewrite Hform. reflexivity.
Defined.



Lemma listModels_query_witness :
  let σ := caller_store [("default_models", VBool false)] in
  constructor options_stub = inr client_stub /\
  wf_arg σ caller_params /\
  exists p,
    descriptor (action_of (listModels sdkHeaders_stub client_stub caller_params
                             (Some 0%nat) σ).2) = Some p /\
    has (query p) "default" = true /\
    has (query p) "source" = false /\
    get (query p) "default" = VBool false.
Proof.
  intros σ.
  assert (Hc : constructor options_stub = inr client_stub) by reflexivity.
  assert (Hwf : wf_arg σ caller_params) by wf_stored.
  split; [exact Hc|]. split; [exact Hwf|].
  destruct (listModels_query sdkHeaders_stub options_stub client_stub caller_params
              (Some 0%nat) σ Hc Hwf) as (p & Hp & _ & Hd & Hs & _ & Hfalse).
  exists p. split; [exact Hp|]. split; [exact Hd|]. split; [exact Hs|].
  exact (Hfalse eq_refl).
Defined.

Lemma promise_settles_witness :
  let σ := caller_store params_custom in
  let run := invoke sdkHeaders_stub Identify client_stub caller_params None σ in
  wf_arg σ caller_params /\
  (callback_first Identify && is_function caller_params)%bool = false /\
  run.2 = Promised (CreateRequest
                      (identify_parameters sdkHeaders_stub client_stub params_custom)
                      (CbPromise 2%positive)) /\
  complete transport_stub run.1 (action_of run.2)
    = Resolved (VObj [("status", VNum 200); ("data", VObj [("languages", VArr [])])]).
Proof.
  intros σ run.
  assert (Hwf : wf_arg σ caller_params) by wf_stored.
  split; [exact Hwf|]. split; [reflexivity|].
  destruct (promise_settles sdkHeaders_stub Identify client_stub caller_params σ
              Hwf eq_refl) as (a & Ha & Hsettle).
  assert (Hrun : run.2 = Promised (CreateRequest
                      (identify_parameters sdkHeaders_stub client_stub params_custom)
                      (CbPromise 2%positive))) by (vm_compute; reflexivity).
  split; [exact Hrun|].
  fold run in Ha, Hsettle.
  rewrite Ha. cbn [action_of]. rewrite Hsettle.
  rewrite Hrun in Ha. injection Ha as <-. reflexivity.
Defined.



Lemma identify_deterministic_witness :
  let σ := caller_store params_custom in
  let first := identify sdkHeaders_stub client_stub caller_params None σ in
  let second := identify sdkHeaders_stub client_stub caller_params (Some 0%nat) first.1 in
  wf_arg σ caller_params /\
  truthy (get (params_of σ caller_params) "text") = true /\
  descriptor (action_of first.2) = descriptor (action_of second.2) /\
  exists p, descriptor (action_of first.2) = Some p /\
    options p = [("url", VStr "/v3/identify"); ("method", VStr "POST");
                 ("body", VStr "bonjour")].
Proof.
  intros σ first second.
  assert (Hwf : wf_arg σ caller_params) by wf_stored.
  split; [exact Hwf|]. split; [reflexivity|].
  destruct (identify_deterministic sdkHeaders_stub client_stub caller_params None
              (Some 0%nat) σ) as [Hsame Hshape].
  split; [exact Hsame|].
  destruct (Hshape Hwf eq_refl) as (p & Hp & Hopts & _).
  exists p. split; [exact Hp | exact Hopts].
Defined.

Lemma callback_in_first_position_witness :
  deref (caller_store []) 1%positive = [] /\
  invoke sdkHeaders_stub ListModels client_stub (ArgFun 7) None (caller_store [])
    = (<[2%positive := []]> (caller_store []),
       Returned (CreateRequest (listModels_parameters sdkHeaders_stub client_stub [])
                   (CbUser 7))) /\
  options (listModels_parameters sdkHeaders_stub client_stub [])
    = [("url", VStr "/v3/models"); ("method", VStr "GET");
       ("qs", VObj [("source", VUndefined); ("target", VUndefined);
                    ("default", VUndefined)])] /\
  invoke sdkHeaders_stub ListModels client_stub (ArgFun 7) None (caller_store [])
    = invoke sdkHeaders_stub ListModels client_stub (ArgObj 1%positive) (Some 7%nat)
        (caller_store []) /\
  (invoke sdkHeaders_stub GetModel client_stub (ArgFun 7) None (caller_store [])).2
    = Promised (Invoke (CbPromise 2%positive) (MissingParams ["model_id"])).
Proof.
  assert (H : deref (caller_store []) 1%positive = []) by reflexivity.
  pose proof (callback_in_first_position sdkHeaders_stub client_stub 7
                (caller_store []) 1%positive ListModels H) as (_ & Hlist & _).
  destruct (Hlist eq_refl) as (Hcall & Hsame & _).
  split; [exact H|]. split; [exact Hcall|]. split; [reflexivity|].
  split; [exact Hsame|].
  exact (proj2 (proj2 (callback_in_first_position sdkHeaders_stub client_stub 7
                         (caller_store []) 1%positive GetModel H)) eq_refl).
Defined.

(** * Further properties of the methods *)

Lemma outcome_plan sdk op this _params cb :
  outcome (plan sdk op this _params cb) =
    match getMissingParams _params (requiredParams op) with
    | Some e => inl e
    | None => inr (parameters_of sdk op this _params)
    end.
Proof. unfold plan. now destruct (getMissingParams _ _). Qed.




Lemma put_absent (t : obj) k v : ~ In k (keys t) -> put t k v = (t ++ [(k, v)])%list.
Proof.
  induction t as [|[k' v'] t IH]; cbn; [reflexivity|].
  intros Hn. destruct (String.eqb k' k) eqn:E.
  - apply String.eqb_eq in E. tauto.
  - rewrite IH by tauto. reflexivity.
Qed.

(** Merging defined scalar entries under new names appends them. *)
Lemma fold_extend_append (q : obj) :
  wf_obj q -> flat q = true ->
  forall t, (forall k, In k (keys q) -> ~ In k (keys t)) ->
  fold_left (extend_step true) q t = (t ++ defined_entries q)%list.
Proof.
  unfold wf_obj. induction q as [|[k c] q IH]; intros Hwf Hflat t Hnew;
    cbn [fold_left defined_entries List.filter snd].
  - now rewrite app_nil_r.
  - apply NoDup_cons in Hwf as [Hk Hwf].
    cbn [flat forallb snd] in Hflat. apply andb_true_iff in Hflat as [Hc Hflat].
    rewrite extend_step_put. destruct (is_undefined c) eqn:E; cbn [negb].
    + apply IH; try assumption. intros k' Hk'. apply Hnew. now right.
    + rewrite (get_absent t k) by (apply Hnew; now left).
      rewrite stored_scalar by assumption. cbn [pick]. rewrite E.
      rewrite put_absent by (apply Hnew; now left).
      rewrite IH; try assumption.
      * now rewrite <- app_assoc.
      * intros k' Hk' Hin. unfold keys in Hin. rewrite map_app in Hin.
        apply in_app_or in Hin as [Hin | [Hin | []]].
        -- apply (Hnew k'); [now right | exact Hin].
        -- cbn in Hin. subst k'. apply Hk. now apply list_elem_of_In.
Qed.

Lemma arg_value_invoke sdk op this params callback (σ : store) a :
  allocated σ a ->
  arg_value (invoke sdk op this params callback σ).1 a = arg_value σ a.
Proof.
  destruct a as [| g | l]; try reflexivity. cbn [allocated arg_value].
  intros Hl. unfold deref. now rewrite invoke_preserves.
Qed.

Section Extras.

Variable getSdkHeaders : string -> string -> string -> obj.

(** X1.  A method calls the transport exactly once when every one of
    its required parameters is truthy in params, and not at all
    otherwise; the two list methods, which require nothing, always call
    it once. *)
Theorem transport_called_iff_required_present op this params callback (σ : store) :
  wf_arg σ params ->
  let run := invoke getSdkHeaders op this params callback σ in
  transport_calls (action_of run.2)
    = (if required_present (params_of σ params) op then 1 else 0)%nat /\
  (callback_first op = true -> transport_calls (action_of run.2) = 1%nat).
Proof.
  intros Hwf run.
  assert (Hcalls : transport_calls (action_of run.2)
            = (if required_present (params_of σ params) op then 1 else 0)%nat).
  { subst run.
    destruct (invoke_action getSdkHeaders op this params callback σ) as [cb ->].
    unfold plan.
    destruct (required_present (params_of σ params) op) eqn:E.
    - apply missing_of_nil_iff in E.
      rewrite getMissingParams_present
        by (now rewrite missing_of_snapshot).
      reflexivity.
    - rewrite getMissingParams_missing; [reflexivity|].
      rewrite missing_of_snapshot by assumption.
      intros Hnil. apply missing_of_nil_iff in Hnil. congruence. }
  split; [exact Hcalls|].
  intros Hop. rewrite Hcalls. now destruct op.
Qed.

(** X2.  Called with a callback, a method returns no promise and its
    completion handler is the caller's function: the function receives
    the validator's error alone, or the reply of the transport as it
    is, in whatever state the store is by then; [return_response] plays
    no part. *)
Theorem callback_receives_reply op this params f (σ : store) transport (τ : store) :
  let run := invoke getSdkHeaders op this params (Some f) σ in
  (exists a, run.2 = Returned a) /\
  complete transport τ (action_of run.2)
    = Called f (reply_of transport (action_of run.2)).
Proof.
  cbn zeta. rewrite invoke_callback. cbn [snd action_of].
  split; [eexists; reflexivity|].
  unfold plan. now destruct (getMissingParams _ _).
Qed.


(** X4.  A call leaves nothing behind for the next one: after any
    call of any method, a call with params that were in the store
    before does what it would have done without the earlier call. *)
Theorem calls_do_not_interfere op1 op2 this params1 params2 callback1 callback2
    (σ : store) :
  allocated σ params2 ->
  let σ' := (invoke getSdkHeaders op1 this params1 callback1 σ).1 in
  outcome (action_of (invoke getSdkHeaders op2 this params2 callback2 σ').2)
    = outcome (action_of (invoke getSdkHeaders op2 this params2 callback2 σ).2).
Proof.
  intros Halloc σ'.
  destruct (invoke_action getSdkHeaders op2 this params2 callback2 σ') as [cb' ->].
  destruct (invoke_action getSdkHeaders op2 this params2 callback2 σ) as [cb ->].
  rewrite !outcome_plan. unfold snapshot_of, σ'.
  now rewrite arg_value_invoke.
Qed.

(** X5.  No params, a function in the place of params and an empty
    params object are all the same to a method: the result and the
    store are equal.  The one exception is a function passed alone to
    one of the two list methods, which is the callback. *)
Theorem empty_params_alike op this g callback (σ : store) l :
  deref σ l = [] ->
  invoke getSdkHeaders op this ArgUndefined callback σ
    = invoke getSdkHeaders op this (ArgObj l) callback σ /\
  ((callback_first op = true -> callback <> None) ->
   invoke getSdkHeaders op this (ArgFun g) callback σ
     = invoke getSdkHeaders op this ArgUndefined callback σ).
Proof.
  intros Hempty.
  assert (Hobj : snapshot_of σ (ArgObj l) = []).
  { unfold snapshot_of. cbn [arg_value]. now rewrite Hempty. }
  assert (Hundef : snapshot_of σ ArgUndefined = []) by reflexivity.
  assert (Hfun : snapshot_of σ (ArgFun g) = []) by reflexivity.
  split.
  - destruct callback as [f|].
    + rewrite !invoke_callback. now rewrite Hobj, Hundef.
    + rewrite !invoke_promise by apply andb_false_r.
      cbn zeta. now rewrite Hobj, Hundef.
  - intros Hcb. destruct callback as [f|].
    + rewrite !invoke_callback. now rewrite Hfun, Hundef.
    + assert (Hop : callback_first op = false).
      { destruct (callback_first op); [|reflexivity].
        exfalso. now apply Hcb. }
      rewrite !invoke_promise by (rewrite Hop; reflexivity).
      cbn zeta. now rewrite Hfun, Hundef.
Qed.

(** X6.  Every request a method produces goes to the path of the
    method with its verb, and its [options] hold, after [url] and
    [method], the payload of that method and nothing else: a body for
    translate and identify only, form data for createModel only, and
    for deleteModel and getModel the [path] object that binds model_id
    to the model_id of params, the url keeping its placeholder. *)
Theorem request_endpoint op this params callback (σ : store) p :
  wf_arg σ params ->
  descriptor (action_of (invoke getSdkHeaders op this params callback σ).2) = Some p ->
  keys (options p) = ("url" :: "method" :: payload_keys op) /\
  get (options p) "url" = VStr (url_of op) /\
  get (options p) "method" = VStr (method_of op) /\
  (op = DeleteModel \/ op = GetModel ->
   get (options p) "path" = VObj [("model_id", get (params_of σ params) "model_id")]).
Proof.
  intros Hwf Hp. apply invoke_descriptor in Hp as [-> _].
  repeat split; try (destruct op; reflexivity).
  intros [-> | ->];
    cbn [parameters_of deleteModel_parameters getModel_parameters options get
         String.eqb Ascii.eqb Bool.eqb];
    now rewrite get_snapshot_of.
Qed.

(** X7.  On a constructed client, when the query values of params are
    scalars, the query of the request the transport builds is exactly
    the version entry followed by the entries of the method's query
    literal that are not undefined, in the order of the literal:
    base_model_id and name for createModel, source, target and default
    for listModels, nothing for the other methods. *)
Theorem query_exact opts v this op params callback (σ : store) p :
  constructor opts = inr this ->
  version opts = Some v ->
  wf_arg σ params ->
  flat (declared_query op (params_of σ params)) = true ->
  descriptor (action_of (invoke getSdkHeaders op this params callback σ).2) = Some p ->
  query p = ("version", VStr v) :: defined_entries (declared_query op (params_of σ params)).
Proof.
  intros Hc Hv Hwf Hflat Hp. apply invoke_descriptor in Hp as [-> _].
  unfold query. rewrite (get_request_qs _ _ _ _ _ _ Hc Hv).
  destruct op;
    cbn [parameters_of translate_parameters identify_parameters
         listIdentifiableLanguages_parameters createModel_parameters
         deleteModel_parameters getModel_parameters listModels_parameters
         options get String.eqb Ascii.eqb Bool.eqb declared_query] in *;
    try (rewrite stored_undefined; reflexivity);
    rewrite !get_snapshot_of by assumption;
    rewrite stored_obj; cbn [as_obj];
    (rewrite fold_extend_append;
     [reflexivity | wf_literal | assumption |]);
    cbn [keys map fst]; intros k Hk [Hin | []]; subst k;
    repeat (destruct Hk as [Hk | Hk]; [discriminate Hk|]); destruct Hk.
Qed.

(** X8.  Every request carries the options of the client on: under
    every name but [headers], a scalar option of the client is in the
    default options of the request with the same value. *)
Theorem client_options_passed_on op this params callback (σ : store) p name :
  wf_obj (_options this) ->
  name <> "headers" ->
  scalar (get (_options this) name) = true ->
  descriptor (action_of (invoke getSdkHeaders op this params callback σ).2) = Some p ->
  get (defaultOptions p) name = get (_options this) name.
Proof.
  intros Hwf Hname Hscalar Hp. apply invoke_descriptor in Hp as [-> _].
  rewrite defaultOptions_parameters_of, get_default_options by assumption.
  destruct (String.eqb "headers" name) eqn:E.
  - apply String.eqb_eq in E. congruence.
  - rewrite stored_scalar by assumption. cbn [pick].
    now destruct (get (_options this) name).
Qed.


(** X10.  The promise a method returns is its callback interface
    wrapped: it is rejected with the error a callback would have
    received, and otherwise resolved with the response that callback
    would have received when [return_response] of params is truthy and
    with the body when it is not. *)
Theorem promise_wraps_callback op this params f (σ : store) transport :
  wf_arg σ params ->
  (callback_first op && is_function params)%bool = false ->
  let promised := invoke getSdkHeaders op this params None σ in
  let r := reply_of transport
             (action_of (invoke getSdkHeaders op this params (Some f) σ).2) in
  complete transport promised.1 (action_of promised.2) =
    match err r with
    | Some e => Rejected e
    | None =>
        if truthy (get (params_of σ params) "return_response")
        then Resolved (res r) else Resolved (bod r)
    end.
Proof.
  intros Hwf Hnf. cbn zeta.
  rewrite invoke_promise, invoke_callback by assumption.
  cbn [fst snd action_of]. unfold plan.
  destruct (getMissingParams _ _); cbn [complete call reply_of err]; [reflexivity|].
  rewrite deref_alloc_ne by apply fresh_after_alloc.
  rewrite deref_alloc, get_snapshot_of by assumption. reflexivity.
Qed.

End Extras.

(** ** The further properties at concrete inputs *)

Lemma transport_called_iff_required_present_witness :
  wf_arg (caller_store params_hello) caller_params /\
  transport_calls
    (action_of (invoke sdkHeaders_stub Translate client_stub caller_params (Some 0%nat)
                  (caller_store params_hello)).2) = 1%nat /\
  transport_calls
    (action_of (invoke sdkHeaders_stub GetModel client_stub caller_params None
                  (caller_store params_hello)).2) = 0%nat.
Proof.
  assert (H : wf_arg (caller_store params_hello) caller_params) by wf_stored.
  split; [exact H|]. split.
  - exact (proj1 (transport_called_iff_required_present sdkHeaders_stub Translate
                    client_stub caller_params (Some 0%nat) _ H)).
  - exact (proj1 (transport_called_iff_required_present sdkHeaders_stub GetModel
                    client_stub caller_params None _ H)).
Defined.


Lemma allocated_caller_params (o : obj) : allocated (caller_store o) caller_params.
Proof.
  cbn [allocated caller_params]. apply elem_of_dom.
  unfold caller_store. rewrite lookup_singleton_eq. eauto.
Defined.

Lemma calls_do_not_interfere_witness :
  let σ := caller_store params_hello in
  let σ' := (invoke sdkHeaders_stub Identify client_stub ArgUndefined None σ).1 in
  allocated σ caller_params /\
  outcome (action_of (invoke sdkHeaders_stub Translate client_stub caller_params
                        (Some 0%nat) σ').2)
    = outcome (action_of (invoke sdkHeaders_stub Translate client_stub caller_params
                            (Some 0%nat) σ).2).
Proof.
  intros σ σ'. split; [apply allocated_caller_params|].
  exact (calls_do_not_interfere sdkHeaders_stub Identify Translate client_stub
           ArgUndefined caller_params None (Some 0%nat) σ
           (allocated_caller_params params_hello)).
Defined.

Lemma empty_params_alike_witness :
  deref (caller_store []) 1%positive = [] /\
  invoke sdkHeaders_stub ListModels client_stub ArgUndefined None (caller_store [])
    = invoke sdkHeaders_stub ListModels client_stub (ArgObj 1%positive) None
        (caller_store []) /\
  invoke sdkHeaders_stub GetModel client_stub (ArgFun 7) None (caller_store [])
    = invoke sdkHeaders_stub GetModel client_stub ArgUndefined None (caller_store []).
Proof.
  assert (H : deref (caller_store []) 1%positive = []) by reflexivity.
  split; [exact H|]. split.
  - exact (proj1 (empty_params_alike sdkHeaders_stub ListModels client_stub 7 None
                    (caller_store []) 1%positive H)).
  - apply (proj2 (empty_params_alike sdkHeaders_stub GetModel client_stub 7 None
                    (caller_store []) 1%positive H)).
    intros Hop. discriminate Hop.
Defined.

Lemma request_endpoint_witness :
  let σ := caller_store [("model_id", VStr "abc123")] in
  let p := deleteModel_parameters sdkHeaders_stub client_stub [("model_id", VStr "abc123")] in
  wf_arg σ caller_params /\
  descriptor (action_of (invoke sdkHeaders_stub DeleteModel client_stub caller_params
                           (Some 0%nat) σ).2) = Some p /\
  keys (options p) = ["url"; "method"; "path"] /\
  get (options p) "method" = VStr "DELETE" /\
  get (options p) "path" = VObj [("model_id", VStr "abc123")].
Proof.
  intros σ p.
  assert (Hwf : wf_arg σ caller_params) by wf_stored.
  assert (Hp : descriptor (action_of (invoke sdkHeaders_stub DeleteModel client_stub
                 caller_params (Some 0%nat) σ).2) = Some p) by (vm_compute; reflexivity).
  destruct (request_endpoint sdkHeaders_stub DeleteModel client_stub caller_params
              (Some 0%nat) σ p Hwf Hp) as (Hkeys & _ & Hmethod & Hpath).
  split; [exact Hwf|]. split; [exact Hp|]. split; [exact Hkeys|].
  split; [exact Hmethod|]. exact (Hpath (or_introl eq_refl)).
Defined.

Lemma query_exact_witness :
  let σ := caller_store [] in
  let p := listModels_parameters sdkHeaders_stub client_stub [] in
  constructor options_stub = inr client_stub /\
  wf_arg σ caller_params /\
  descriptor (action_of (invoke sdkHeaders_stub ListModels client_stub caller_params
                           (Some 0%nat) σ).2) = Some p /\
  query p = [("version", VStr "2018-05-01")].
Proof.
  intros σ p.
  assert (Hc : constructor options_stub = inr client_stub) by reflexivity.
  assert (Hwf : wf_arg σ caller_params) by wf_stored.
  assert (Hp : descriptor (action_of (invoke sdkHeaders_stub ListModels client_stub
                 caller_params (Some 0%nat) σ).2) = Some p) by (vm_compute; reflexivity).
  split; [exact Hc|]. split; [exact Hwf|]. split; [exact Hp|].
  exact (query_exact sdkHeaders_stub options_stub "2018-05-01" client_stub ListModels
           caller_params (Some 0%nat) σ p Hc eq_refl Hwf eq_refl Hp).
Defined.

Lemma client_options_passed_on_witness :
  let σ := caller_store params_hello in
  let p := translate_parameters sdkHeaders_stub client_with_url params_hello in
  wf_obj (_options client_with_url) /\
  descriptor (action_of (invoke sdkHeaders_stub Translate client_with_url caller_params
                           (Some 0%nat) σ).2) = Some p /\
  get (defaultOptions p) "url" = VStr "https://example.test/api" /\
  get (defaultOptions p) "iam_apikey" = VStr "key".
Proof.
  intros σ p.
  assert (Hwo : wf_obj (_options client_with_url)) by wf_stored.
  assert (Hp : descriptor (action_of (invoke sdkHeaders_stub Translate client_with_url
                 caller_params (Some 0%nat) σ).2) = Some p) by (vm_compute; reflexivity).
  split; [exact Hwo|]. split; [exact Hp|]. split.
  - apply (client_options_passed_on sdkHeaders_stub Translate client_with_url
             caller_params (Some 0%nat) σ p "url" Hwo); [discriminate | reflexivity | exact Hp].
  - apply (client_options_passed_on sdkHeaders_stub Translate client_with_url
             caller_params (Some 0%nat) σ p "iam_apikey" Hwo);
      [discriminate | reflexivity | exact Hp].
Defined.


Lemma promise_wraps_callback_witness :
  let σ := caller_store params_custom in
  let promised := invoke sdkHeaders_stub Identify client_stub caller_params None σ in
  wf_arg σ caller_params /\
  (callback_first Identify && is_function caller_params)%bool = false /\
  complete transport_stub promised.1 (action_of promised.2)
    = Resolved (VObj [("status", VNum 200); ("data", VObj [("languages", VArr [])])]).
Proof.
  intros σ promised.
  assert (Hwf : wf_arg σ caller_params) by wf_stored.
  split; [exact Hwf|]. split; [reflexivity|].
  exact (promise_wraps_callback sdkHeaders_stub Identify client_stub caller_params 0%nat
           σ transport_stub Hwf eq_refl).
Defined.
